(** * Contact relay handler (api/contact): a shallow embedding and its properties

    The repository is one Azure Function that receives a contact-form POST and
    relays it as mail through Microsoft Graph.  Three variants of the handler
    are in the tree:

    - [api/contact/index.js]           -> [Module Index]
    - the logging variant              -> [Module Logged]
    - the msal / querystring variant   -> [Module Msal]

    JavaScript strings are sequences of UTF-16 code units and are modelled as
    [list N]; JavaScript values coming out of a request body are modelled by
    [jsval]; the handler is written in a small writer/exception monad whose
    log records every observable action (log lines, credential construction,
    token requests, outbound fetches and assignments to [context.res]). *)

From Stdlib Require Import NArith ZArith Ascii String Floats.SpecFloat Lia.
From stdpp Require Import gmap list fin_maps pretty.

Set Warnings "-register-all".
#[local] Open Scope N_scope.

(** ** Strings *)

Abbreviation jsstring := (list N).

(** A source literal (ASCII only) as a sequence of code units. *)
Definition lit (s : string) : jsstring := N_of_ascii <$> list_ascii_of_string s.

(** Code units that cannot be written inside a literal of this file. *)
Definition dq : jsstring := [34].          (* the double quote *)
Definition nl : jsstring := [10].          (* line feed, the line ending of the source files *)
Definition emdash : jsstring := [8212].    (* U+2014 *)
Definition rsquo : jsstring := [8217].     (* U+2019 *)

Definition amp : N := 38.
Definition lt : N := 60.
Definition gt : N := 62.
Definition quot : N := 34.

(** [String.prototype.trim]: the WhiteSpace and LineTerminator code units of
    ECMAScript. *)
Definition is_ws (c : N) : bool :=
  ((9 <=? c) && (c <=? 13)) || (c =? 32) || (c =? 160) || (c =? 5760)
  || ((8192 <=? c) && (c <=? 8202)) || (c =? 8232) || (c =? 8233)
  || (c =? 8239) || (c =? 8287) || (c =? 12288) || (c =? 65279).

Fixpoint trimStart (s : jsstring) : jsstring :=
  match s with
  | c :: t => if is_ws c then trimStart t else s
  | [] => []
  end.

Definition trimEnd (s : jsstring) : jsstring := reverse (trimStart (reverse s)).

Definition trim (s : jsstring) : jsstring := trimEnd (trimStart s).

(** [s.startsWith(p)] *)
Fixpoint startsWith (p s : jsstring) : bool :=
  match p, s with
  | [], _ => true
  | a :: p', b :: s' => (a =? b) && startsWith p' s'
  | _ :: _, [] => false
  end.

(** [s.includes(p)] *)
Fixpoint includes (s p : jsstring) : bool :=
  startsWith p s || match s with [] => false | _ :: t => includes t p end.

(** [s.replaceAll(pat, rep)] for a pattern string and a replacement without
    [$] patterns: scan left to right, replace each match and resume after it.
    [skip] counts the code units of the current match still to be dropped. *)
Fixpoint replaceAll_from (pat rep : jsstring) (skip : nat) (s : jsstring) : jsstring :=
  match s with
  | [] => []
  | c :: t =>
      match skip with
      | S k => replaceAll_from pat rep k t
      | O =>
          if startsWith pat s
          then rep ++ replaceAll_from pat rep (Nat.pred (length pat)) t
          else c :: replaceAll_from pat rep O t
      end
  end.

Definition replaceAll (pat rep s : jsstring) : jsstring :=
  match pat with
  | [] => rep ++ flat_map (fun c => c :: rep) s
  | _ => replaceAll_from pat rep O s
  end.

(** [esc] of the source: four chained [replaceAll], ampersand first.  Every
    caller passes a string, so the default parameter and [String(s)] are the
    identity here. *)
Definition esc (s : jsstring) : jsstring :=
  replaceAll dq (lit "&quot;")
    (replaceAll (lit ">") (lit "&gt;")
      (replaceAll (lit "<") (lit "&lt;")
        (replaceAll (lit "&") (lit "&amp;") s))).

(** [encodeURIComponent]: the unreserved set is kept, every other code point
    is written as the percent-escaped octets of its UTF-8 encoding, and a lone
    surrogate raises [URIError] ([None]). *)
Definition uri_unreserved (c : N) : bool :=
  ((65 <=? c) && (c <=? 90)) || ((97 <=? c) && (c <=? 122))
  || ((48 <=? c) && (c <=? 57))
  || (c =? 45) || (c =? 95) || (c =? 46) || (c =? 33) || (c =? 126)
  || (c =? 42) || (c =? 39) || (c =? 40) || (c =? 41).

Definition hex_digit (d : N) : N := if d <? 10 then 48 + d else 55 + d.

Definition pct_octet (b : N) : jsstring := [37; hex_digit (b / 16); hex_digit (b mod 16)].

Definition utf8 (cp : N) : list N :=
  if cp <? 128 then [cp]
  else if cp <? 2048 then [192 + cp / 64; 128 + cp mod 64]
  else if cp <? 65536 then [224 + cp / 4096; 128 + (cp / 64) mod 64; 128 + cp mod 64]
  else [240 + cp / 262144; 128 + (cp / 4096) mod 64; 128 + (cp / 64) mod 64; 128 + cp mod 64].

Definition is_lead (c : N) : bool := (55296 <=? c) && (c <=? 56319).
Definition is_trail (c : N) : bool := (56320 <=? c) && (c <=? 57343).

Fixpoint encodeURIComponent (s : jsstring) : option jsstring :=
  match s with
  | [] => Some []
  | c :: t =>
      if uri_unreserved c then (c ::.) <$> encodeURIComponent t
      else if is_lead c then
        match t with
        | d :: t' =>
            if is_trail d
            then (flat_map pct_octet (utf8 (65536 + (c - 55296) * 1024 + (d - 56320))) ++.)
                   <$> encodeURIComponent t'
            else None
        | [] => None
        end
      else if is_trail c then None
      else (flat_map pct_octet (utf8 c) ++.) <$> encodeURIComponent t
  end.

(** ** Values of a parsed body *)

(** What [JSON.parse], [Object.fromEntries] or the platform's own body
    parsing can hand to the handler.  Numbers are IEEE doubles. *)
Inductive jsval : Type :=
| VUndefined
| VNull
| VBool (b : bool)
| VNum (x : spec_float)
| VStr (s : jsstring)
| VArr (items : list jsval)
| VObj (props : gmap jsstring jsval).

(** ToBoolean. *)
Definition truthy (v : jsval) : bool :=
  match v with
  | VUndefined | VNull => false
  | VBool b => b
  | VNum x => match x with S754_zero _ | S754_nan => false | _ => true end
  | VStr s => negb (bool_decide (s = []))
  | VArr _ | VObj _ => true
  end.

(** [typeof v === "object"] *)
Definition typeof_object (v : jsval) : bool :=
  match v with VNull | VArr _ | VObj _ => true | _ => false end.

(** [a || b] *)
Definition js_or (a b : jsval) : jsval := if truthy a then a else b.

(** ** Exceptions, the action log and the monad *)

Inductive Thrown : Type :=
| TypeError                    (* a property read on null/undefined, or a call of a non-function *)
| URIError                     (* encodeURIComponent on a lone surrogate *)
| Error (msg : jsstring)       (* [new Error(msg)] thrown by the handler itself *)
| Rejection (reason : jsval).  (* whatever a collaborator throws or rejects with *)

Inductive Result (A : Type) : Type :=
| Ok (a : A)
| Throw (e : Thrown).
Arguments Ok {A} a.
Arguments Throw {A} e.

Record JsonBody := { ok : bool; message : jsstring }.
Record HttpResponse := { status : N; jsonBody : JsonBody }.

(** The object handed to Graph.  A property that may hold [undefined] is an
    [option]; [saveToSentItems] is [true] in two variants and the string
    ["true"] in the third, so it is a [jsval]. *)
Record EmailAddress := { address : option jsstring; name : option jsstring }.
Record Recipient := { emailAddress : EmailAddress }.
Record ItemBody := { contentType : jsstring; content : jsstring }.
Record Message := {
  subject : jsstring;
  body : ItemBody;
  toRecipients : list Recipient;
  replyTo : option (list Recipient)
}.
Record Mail := { mail_message : Message; saveToSentItems : jsval }.

(** The [init] argument of [fetch]; [init_body] is the object handed to
    [JSON.stringify]. *)
Record FetchInit := {
  method : jsstring;
  Authorization : jsstring;
  Content_Type : jsstring;
  init_body : Mail
}.

Inductive LogLevel := LInfo | LWarn | LError.

Inductive LogArg : Type :=
| LStr (s : jsstring)
| LNum (n : N)
| LBool (b : bool)
| LErr (e : Thrown)                          (* the thrown value itself *)
| LErrMessage (e : Thrown)                   (* [e?.message || e] *)
| LObj (fields : list (string * LogArg)).

Inductive Event : Type :=
| ELog (lvl : LogLevel) (args : list LogArg)
| ENewCredential (tenantId clientId clientSecret : option jsstring)
| EGetToken (scope : jsstring)
| EAcquireToken (scopes : list jsstring)     (* msal's acquireTokenByClientCredential *)
| EFetch (url : jsstring) (init : FetchInit)
| EText                                      (* [resp.text()] *)
| ESetRes (r : HttpResponse).                (* [context.res = r] *)

(** A computation emits a list of events and either returns or throws. *)
Definition M (A : Type) : Type := list Event * Result A.

Definition ret {A} (a : A) : M A := ([], Ok a).
Definition throw {A} (e : Thrown) : M A := ([], Throw e).
Definition emit (ev : Event) : M unit := ([ev], Ok tt).

Definition bind {A B} (m : M A) (k : A -> M B) : M B :=
  match m with
  | (tr, Ok a) => let '(tr', r) := k a in (tr ++ tr', r)
  | (tr, Throw e) => (tr, Throw e)
  end.

(** [try { m } catch (err) { h err }] *)
Definition try_catch {A} (m : M A) (h : Thrown -> M A) : M A :=
  match m with
  | (tr, Ok a) => (tr, Ok a)
  | (tr, Throw e) => let '(tr', r) := h e in (tr ++ tr', r)
  end.

(** An awaited call of a collaborator: the event, then its outcome. *)
Definition call {A} (ev : Event) (outcome : Result A) : M A := ([ev], outcome).

Declare Scope js_scope.
Delimit Scope js_scope with js.
Notation "x <- m ;; k" := (bind m (fun x => k))
  (at level 100, m at next level, right associativity) : js_scope.
Notation "m ;; k" := (bind m (fun _ => k))
  (at level 100, right associativity) : js_scope.
#[local] Open Scope js_scope.

Definition log (lvl : LogLevel) (args : list LogArg) : M unit := emit (ELog lvl args).

(** The response [{ status, jsonBody: { ok, message } }]. *)
Definition response (st : N) (o : bool) (msg : jsstring) : HttpResponse :=
  {| status := st; jsonBody := {| ok := o; message := msg |} |}.

(** [context.res = { status, jsonBody: { ok, message } }] *)
Definition set_res (st : N) (o : bool) (msg : jsstring) : M unit :=
  emit (ESetRes (response st o msg)).

(** [v.k] for the property names the handlers read ([website], [name],
    [email], [phone], [message]): none of them is an own or inherited property
    of an array or of a primitive, so only objects can answer; reading a
    property of [null] or [undefined] throws. *)
Definition get_prop (v : jsval) (k : jsstring) : M jsval :=
  match v with
  | VUndefined | VNull => throw TypeError
  | VObj props => ret (default VUndefined (props !! k))
  | _ => ret VUndefined
  end.

(** [(v || '').trim()]: only a string has a [trim] method; on any other
    truthy value the call throws. *)
Definition or_empty_trim (v : jsval) : M jsstring :=
  match js_or v (VStr []) with
  | VStr s => ret (trim s)
  | _ => throw TypeError
  end.

(** ** The platform *)

(** Built-ins whose full definition lives in the JavaScript runtime, not in
    the repository.  [JSON_parse] answers [None] where [JSON.parse] throws a
    [SyntaxError]; [URLSearchParams_entries s] is the list of decoded pairs of
    [new URLSearchParams(s).entries()]; [querystring_parse] is Node's
    [querystring.parse], whose values are strings, or arrays of strings for a
    repeated key. *)
Class Runtime := {
  toLowerCase : jsstring -> jsstring;
  URLSearchParams_entries : jsstring -> list (jsstring * jsstring);
  JSON_parse : jsstring -> option jsval;
  querystring_parse : jsstring -> gmap jsstring (jsstring + list jsstring)
}.

(** The request as the handler reads it: [req.headers["content-type"]],
    [req.body] and [req.rawBody]. *)
Record Request := {
  header_content_type : option jsstring;
  req_body : jsval;
  rawBody : option jsstring
}.

(** [process.env]: a variable is unset ([None]) or a string. *)
Record Env := {
  TENANT_ID : option jsstring;
  CLIENT_ID : option jsstring;
  CLIENT_SECRET : option jsstring;
  MAILBOX_ADDRESS : option jsstring
}.

Record Context := { invocationId : option jsstring }.

Record Credential := {
  cred_tenantId : option jsstring;
  cred_clientId : option jsstring;
  cred_clientSecret : option jsstring
}.

Record AccessToken := { token : jsstring; expiresOnTimestamp : N }.

(** msal's [AuthenticationResult], of which only [accessToken] is read. *)
Record AuthenticationResult := { accessToken : jsstring }.

Record FetchResponse := {
  resp_status : N;
  resp_text : Result jsstring      (* what awaiting [resp.text()] gives *)
}.

(** [resp.ok] of the Fetch standard: the status is in the range 200 to 299. *)
Definition resp_ok (r : FetchResponse) : bool :=
  (200 <=? resp_status r) && (resp_status r <=? 299).

(** The collaborators: the identity library and the network.  Each answer may
    depend on the arguments of the call; every awaited call settles, with a
    value ([Ok]) or with a rejection ([Throw]). *)
Record World := {
  new_ClientSecretCredential : Credential -> Result unit;
  getToken : Credential -> jsstring -> Result (option AccessToken);
  acquireTokenByClientCredential : list jsstring -> Result (option AuthenticationResult);
  fetch : jsstring -> FetchInit -> Result FetchResponse
}.

(** [!v] and [v || d] on a value that is a string or [undefined], and
    [String(v)] of one. *)
Definition env_falsy (v : option jsstring) : bool :=
  match v with Some (_ :: _) => false | _ => true end.

Definition opt_or (v : option jsstring) (d : jsstring) : jsstring :=
  match v with Some (c :: t) => c :: t | _ => d end.

Definition env_ToString (v : option jsstring) : jsstring :=
  default (lit "undefined") v.

(** [Object.fromEntries]: a later pair overwrites an earlier one. *)
Definition fromEntries (es : list (jsstring * jsstring)) : jsval :=
  VObj (foldl (fun m e => <[e.1 := VStr e.2]> m) ∅ es).

(** [parseBody], the same text in [index.js] and in the logging variant. *)
Definition parseBody `{rt : Runtime} (req : Request) : jsval :=
  let ctype := toLowerCase (default [] (header_content_type req)) in
  if includes ctype (lit "application/x-www-form-urlencoded") then
    fromEntries (URLSearchParams_entries
                   (match req_body req with VStr s => s | _ => [] end))
  else if typeof_object (req_body req) && truthy (req_body req) then req_body req
  else
    match JSON_parse (opt_or (rawBody req) (lit "{}")) with
    | Some v => v
    | None => VObj ∅
    end.

Definition fallback_address : jsstring := lit "jon@schneiderdrafting.com".

(** The HTML template literal, with the line breaks and indentation of the
    source. *)
Definition html_body (name email phone message : jsstring) : jsstring :=
  nl ++ lit "      <div style=" ++ dq
     ++ lit "font-family:Segoe UI,Arial,sans-serif;font-size:14px;" ++ dq ++ lit ">"
  ++ nl ++ lit "        <h2 style=" ++ dq ++ lit "margin:0 0 8px;" ++ dq
     ++ lit ">New Contact " ++ emdash ++ lit " Schneider Drafting Services</h2>"
  ++ nl ++ lit "        <p><strong>Name:</strong> " ++ esc name ++ lit "</p>"
  ++ nl ++ lit "        <p><strong>Email:</strong> " ++ esc email ++ lit "</p>"
  ++ nl ++ lit "        "
     ++ (match phone with
         | [] => []
         | _ => lit "<p><strong>Phone:</strong> " ++ esc phone ++ lit "</p>"
         end)
  ++ nl ++ lit "        <hr style=" ++ dq
     ++ lit "border:none;border-top:1px solid #ddd;margin:12px 0;" ++ dq ++ lit " />"
  ++ nl ++ lit "        <p style=" ++ dq ++ lit "white-space:pre-wrap;" ++ dq ++ lit ">"
     ++ esc message ++ lit "</p>"
  ++ nl ++ lit "      </div>"
  ++ nl ++ lit "    ".

(** The [mail] object literal. *)
Definition build_mail (toAddress name email phone message : jsstring) : Mail :=
  {| mail_message :=
       {| subject := lit "SDS Contact: " ++ name ++ lit " <" ++ email ++ lit ">";
          body := {| contentType := lit "HTML";
                     content := html_body name email phone message |};
          toRecipients :=
            [ {| emailAddress := {| address := Some toAddress; name := None |} |} ];
          replyTo :=
            Some [ {| emailAddress := {| address := Some email; name := Some name |} |} ] |};
     saveToSentItems := VBool true |}.

Definition graph_scope : jsstring := lit "https://graph.microsoft.com/.default".

(** The template literal of the [sendMail] URL; [encodeURIComponent] may
    throw. *)
Definition sendMail_url (fromUser : option jsstring) : M jsstring :=
  match encodeURIComponent (env_ToString fromUser) with
  | Some u => ret (lit "https://graph.microsoft.com/v1.0/users/" ++ u ++ lit "/sendMail")
  | None => throw URIError
  end.

Definition fetch_init (tok : jsstring) (mail : Mail) : FetchInit :=
  {| method := lit "POST";
     Authorization := lit "Bearer " ++ tok;
     Content_Type := lit "application/json";
     init_body := mail |}.

(** [!token?.token] *)
Definition no_token (t : option AccessToken) : bool :=
  match t with Some a => bool_decide (token a = []) | None => true end.

Definition token_of (t : option AccessToken) : jsstring :=
  match t with Some a => token a | None => [] end.

(** ** What a run shows *)

(** The events that reach a collaborator. *)
Definition is_external (e : Event) : bool :=
  match e with
  | ENewCredential _ _ _ | EGetToken _ | EAcquireToken _ | EFetch _ _ | EText => true
  | ELog _ _ | ESetRes _ => false
  end.

Definition external_calls (tr : list Event) : list Event := List.filter is_external tr.

(** The values assigned to [context.res], in order. *)
Definition responses (tr : list Event) : list HttpResponse :=
  omap (fun e => match e with ESetRes r => Some r | _ => None end) tr.

(** The outbound [fetch] calls made. *)
Definition sends (tr : list Event) : list (jsstring * FetchInit) :=
  omap (fun e => match e with EFetch u i => Some (u, i) | _ => None end) tr.

(** A handler run that returned normally after assigning [context.res]
    exactly once, to a response satisfying [P]. *)
Definition responds_once (m : M unit) (P : HttpResponse -> Prop) : Prop :=
  exists tr r, m = (tr, Ok tt) /\ responses tr = [r] /\ P r.

(** ** [api/contact/index.js] *)
Module Index.

(** The body of the [try] block. *)
Definition try_block `{rt : Runtime} (w : World) (env : Env) (req : Request) : M unit :=
    (let data := parseBody req in
     website <- get_prop data (lit "website") ;;
     (* Honeypot *)
     if truthy website then set_res 200 true (lit "Thanks!") else
     name <- (v <- get_prop data (lit "name") ;; or_empty_trim v) ;;
     email <- (v <- get_prop data (lit "email") ;; or_empty_trim v) ;;
     phone <- (v <- get_prop data (lit "phone") ;; or_empty_trim v) ;;
     message <- (v <- get_prop data (lit "message") ;; or_empty_trim v) ;;
     if bool_decide (name = []) || bool_decide (email = []) || bool_decide (message = [])
     then set_res 400 false (lit "Please include name, email, and message.") else
     if 5000 <? N.of_nat (length message)
     then set_res 400 false (lit "Message is too long.") else
     let tenantId := TENANT_ID env in
     let clientId := CLIENT_ID env in
     let clientSecret := CLIENT_SECRET env in
     let fromUser := MAILBOX_ADDRESS env in
     let toAddress := opt_or (MAILBOX_ADDRESS env) fallback_address in
     if env_falsy tenantId || env_falsy clientId || env_falsy clientSecret || env_falsy fromUser
     then
       log LError [LStr (lit "Missing Graph env vars.")] ;;
       set_res 500 false (lit "Mail service not configured.")
     else
     let credential :=
       {| cred_tenantId := tenantId; cred_clientId := clientId;
          cred_clientSecret := clientSecret |} in
     call (ENewCredential tenantId clientId clientSecret)
          (new_ClientSecretCredential w credential) ;;
     tok <- call (EGetToken graph_scope) (getToken w credential graph_scope) ;;
     if no_token tok then throw (Error (lit "Failed to acquire Graph token")) else
     let mail := build_mail toAddress name email phone message in
     url <- sendMail_url fromUser ;;
     let init := fetch_init (token_of tok) mail in
     resp <- call (EFetch url init) (fetch w url init) ;;
     if negb (resp_ok resp) then
       text <- call EText (resp_text resp) ;;
       log LError [LStr (lit "Graph sendMail failed:"); LNum (resp_status resp); LStr text] ;;
       throw (Error (lit "Email send failed."))
     else
     set_res 200 true (lit "Thanks! Your message has been sent.")).

(** The body of the [catch] block. *)
Definition catch_block (err : Thrown) : M unit :=
  log LError [LErr err] ;;
  set_res 500 false (lit "Send failed. Please email jon@schneiderdrafting.com.").

(** The default export. *)
Definition handler `{rt : Runtime} (w : World) (env : Env) (req : Request) : M unit :=
  try_catch (try_block w env req) catch_block.

End Index.

(** ** The logging variant *)
Module Logged.

Definition check_mark : jsstring := [10003].   (* U+2713 *)
Definition cross_mark : jsstring := [10007].   (* U+2717 *)

(** [mask] *)
Definition mask (v : option jsstring) : jsstring :=
  if env_falsy v then cross_mark else check_mark.

Definition is_line_terminator (c : N) : bool :=
  (c =? 10) || (c =? 13) || (c =? 8232) || (c =? 8233).

(** The suffix of [s] that starts at its last [@] followed by at least one
    code unit: where the greedy [.+] of the pattern lets group 2 begin. *)
Fixpoint last_at_suffix (s : jsstring) : option jsstring :=
  match s with
  | [] => None
  | c :: t =>
      match last_at_suffix t with
      | Some r => Some r
      | None => if (c =? 64) && negb (bool_decide (t = [])) then Some s else None
      end
  end.

(** [maskEmail]: [v.replace(/^(.).+(@.+)$/, "$1***$2")].  The pattern is
    anchored at both ends and [.] excludes line terminators. *)
Definition maskEmail (v : option jsstring) : jsstring :=
  match v with
  | Some (c :: t) =>
      if forallb (fun x => negb (is_line_terminator x)) (c :: t) then
        match t with
        | _ :: t' =>
            match last_at_suffix t' with
            | Some suffix => c :: lit "***" ++ suffix
            | None => c :: t
            end
        | [] => c :: t
        end
      else c :: t
  | _ => lit "(missing)"
  end.

(** The prefix of every log line. *)
Definition tag (rid : jsstring) (what : string) : LogArg :=
  LStr (lit "[contact] [" ++ rid ++ lit "] " ++ lit what).

(** The body of the [try] block; [rid] is the request id of the log lines. *)
Definition try_block `{rt : Runtime} (w : World) (env : Env) (rid : jsstring) (req : Request)
  : M unit :=
    ((* 1) Parse + basic validation *)
     let data := parseBody req in
     log LInfo [tag rid "received";
                LObj [("hasBody", LBool (truthy data));
                      ("ctype", LStr (opt_or (header_content_type req) (lit "(none)")))]] ;;
     website <- get_prop data (lit "website") ;;
     if truthy website then
       log LInfo [tag rid "honeypot tripped; returning 200 silently"] ;;
       set_res 200 true (lit "Thanks!")
     else
     name <- (v <- get_prop data (lit "name") ;; or_empty_trim v) ;;
     email <- (v <- get_prop data (lit "email") ;; or_empty_trim v) ;;
     phone <- (v <- get_prop data (lit "phone") ;; or_empty_trim v) ;;
     message <- (v <- get_prop data (lit "message") ;; or_empty_trim v) ;;
     if bool_decide (name = []) || bool_decide (email = []) || bool_decide (message = [])
     then
       log LWarn [tag rid "missing required fields";
                  LObj [("name", LBool (negb (bool_decide (name = []))));
                        ("email", LBool (negb (bool_decide (email = []))));
                        ("message", LBool (negb (bool_decide (message = []))))]] ;;
       set_res 400 false (lit "Please include name, email, and message.")
     else
     if 5000 <? N.of_nat (length message)
     then
       log LWarn [tag rid "message too long";
                  LObj [("len", LNum (N.of_nat (length message)))]] ;;
       set_res 400 false (lit "Message is too long.")
     else
     (* 2) Env vars *)
     let tenantId := TENANT_ID env in
     let clientId := CLIENT_ID env in
     let clientSecret := CLIENT_SECRET env in
     let fromUser := MAILBOX_ADDRESS env in
     let toAddress := opt_or (MAILBOX_ADDRESS env) fallback_address in
     log LInfo [tag rid "env check";
                LObj [("tenantId", LStr (mask tenantId));
                      ("clientId", LStr (mask clientId));
                      ("clientSecret", LStr (mask clientSecret));
                      ("fromUser", LStr (maskEmail fromUser));
                      ("toAddress", LStr (maskEmail (Some toAddress)))]] ;;
     if env_falsy tenantId || env_falsy clientId || env_falsy clientSecret || env_falsy fromUser
     then
       log LError [tag rid "missing Graph env vars"] ;;
       set_res 500 false (lit "Mail service not configured.")
     else
     (* 3) Token acquisition *)
     let credential :=
       {| cred_tenantId := tenantId; cred_clientId := clientId;
          cred_clientSecret := clientSecret |} in
     call (ENewCredential tenantId clientId clientSecret)
          (new_ClientSecretCredential w credential) ;;
     tok <- try_catch
              (t <- call (EGetToken graph_scope) (getToken w credential graph_scope) ;;
               log LInfo [tag rid "token acquired"] ;;
               ret t)
              (fun e =>
                 log LError [tag rid "token error"; LErrMessage e] ;;
                 throw e) ;;
     if no_token tok then throw (Error (lit "No Graph token acquired")) else
     (* 4) Build the mail *)
     let mail := build_mail toAddress name email phone message in
     (* 5) Send via Graph *)
     url <- sendMail_url fromUser ;;
     log LInfo [tag rid "sending via Graph";
                LObj [("url", LStr url); ("fromUser", LStr (maskEmail fromUser))]] ;;
     let init := fetch_init (token_of tok) mail in
     resp <- call (EFetch url init) (fetch w url init) ;;
     if negb (resp_ok resp) then
       text <- try_catch (call EText (resp_text resp)) (fun _ => ret []) ;;
       log LError [tag rid "Graph sendMail failed"; LNum (resp_status resp); LStr text] ;;
       throw (Error (lit "Graph sendMail " ++ lit (pretty (resp_status resp))))
     else
     log LInfo [tag rid "sendMail OK"] ;;
     set_res 200 true (lit "Thanks! Your message has been sent.")).

(** The final catch-all. *)
Definition catch_block (rid : jsstring) (err : Thrown) : M unit :=
  log LError [tag rid "unhandled"; LErrMessage err] ;;
  set_res 500 false (lit "Send failed. Please email jon@schneiderdrafting.com.").

(** The default export. *)
Definition handler `{rt : Runtime} (w : World) (env : Env) (context : Context) (req : Request)
  : M unit :=
  let rid := opt_or (invocationId context) (lit "n/a") in
  try_catch (try_block w env rid req) (catch_block rid).

End Logged.

(** ** The msal / querystring variant *)
Module Msal.

(** The request of the v4 programming model: the handler awaits
    [req.text()]. *)
Record HttpRequest := { text : Result jsstring }.

(** [[a, b, c].join(sep)] *)
Fixpoint join (sep : jsstring) (l : list jsstring) : jsstring :=
  match l with
  | [] => []
  | [x] => x
  | x :: t => x ++ sep ++ join sep t
  end.

(** [String(s || '')] on a value of [querystring.parse]: an absent key is
    [undefined], an array is always truthy and prints as its elements joined
    by commas. *)
Definition String_or_empty (v : option (jsstring + list jsstring)) : jsstring :=
  match v with
  | None => []
  | Some (inl s) => s
  | Some (inr l) => join (lit ",") l
  end.

(** [data.website] as a condition. *)
Definition qs_truthy (v : option (jsstring + list jsstring)) : bool :=
  match v with
  | None => false
  | Some (inl s) => negb (bool_decide (s = []))
  | Some (inr _) => true
  end.

Definition is_crlf (c : N) : bool := (c =? 13) || (c =? 10).

(** [s.replace(/[\r\n]+/g, "\n")]: every maximal run of CR and LF becomes one
    LF.  [in_run] tells that the previous code unit was part of a run. *)
Fixpoint collapse_newlines (in_run : bool) (s : jsstring) : jsstring :=
  match s with
  | [] => []
  | c :: t =>
      if is_crlf c
      then (if in_run then [] else nl) ++ collapse_newlines true t
      else c :: collapse_newlines false t
  end.

(** [sanitize] *)
Definition sanitize (v : option (jsstring + list jsstring)) : jsstring :=
  trim (collapse_newlines false (String_or_empty v)).

(** [buildMessage]; [MAILBOX_ADDRESS] is the module-level constant read from
    the environment. *)
Definition buildMessage (env : Env) (name email phone message : jsstring) : Mail :=
  let subject := lit "New inquiry from " ++ name in
  let body :=
    join nl [lit "Name: " ++ name; lit "Email: " ++ email; lit "Phone: " ++ phone;
             []; lit "Message:"; message] in
  {| mail_message :=
       {| subject := subject;
          body := {| contentType := lit "Text"; content := body |};
          toRecipients :=
            [ {| emailAddress := {| address := MAILBOX_ADDRESS env; name := None |} |} ];
          replyTo :=
            match email with
            | [] => None
            | _ => Some [ {| emailAddress := {| address := Some email; name := None |} |} ]
            end |};
     saveToSentItems := VStr (lit "true") |}.

(** [!token] for [result?.accessToken] *)
Definition no_accessToken (r : option AuthenticationResult) : bool :=
  match r with Some a => bool_decide (accessToken a = []) | None => true end.

Definition accessToken_of (r : option AuthenticationResult) : jsstring :=
  match r with Some a => accessToken a | None => [] end.

(** [sendMailViaGraph] *)
Definition sendMailViaGraph (w : World) (env : Env) (msg : Mail) : M unit :=
  result <- call (EAcquireToken [graph_scope])
                 (acquireTokenByClientCredential w [graph_scope]) ;;
  if no_accessToken result then throw (Error (lit "No Graph token")) else
  endpoint <- sendMail_url (MAILBOX_ADDRESS env) ;;
  let init := fetch_init (accessToken_of result) msg in
  res <- call (EFetch endpoint init) (fetch w endpoint init) ;;
  if negb (resp_ok res)
  then throw (Error (lit "Graph sendMail failed (" ++ lit (pretty (resp_status res)) ++ lit ")"))
  else ret tt.

(** [return { status, jsonBody: { ok, message } }] *)
Definition respond (st : N) (o : bool) (msg : jsstring) : M HttpResponse :=
  ret (response st o msg).

(** The [handler] registered with [app.http("contact", ...)]: it returns the
    response instead of assigning [context.res]. *)
Definition handler `{rt : Runtime} (w : World) (env : Env) (req : HttpRequest) : M HttpResponse :=
  try_catch
    (raw <- ([], text req) ;;
     let data := querystring_parse raw in
     if qs_truthy (data !! lit "website")
     then respond 200 true (lit "Thanks!")   (* honeypot *)
     else
     let name := sanitize (data !! lit "name") in
     let email := sanitize (data !! lit "email") in
     let phone := sanitize (data !! lit "phone") in
     let message := sanitize (data !! lit "message") in
     if bool_decide (name = []) || bool_decide (email = [])
     then respond 400 false (lit "Please include your name and a valid email.")
     else
     sendMailViaGraph w env (buildMessage env name email phone message) ;;
     respond 200 true (lit "Thanks! Your message has been sent."))
    (fun err =>
       log LInfo [LStr (lit "Contact error:"); LErrMessage err] ;;
       respond 500 false
         (lit "We couldn" ++ rsquo
            ++ lit "t send your message. Please email info@schneiderdrafting.com.")).

End Msal.

(** ** Comparing the variants *)

(** What a caller and the collaborators see of a run: the responses assigned,
    the calls that left the process, and whether the run returned or threw.
    Log lines are not part of it. *)
Definition observe (m : M unit) : list HttpResponse * list Event * Result unit :=
  (responses m.1, external_calls m.1, m.2).

(** The four texts a failing request can be answered with in [index.js] and
    in the logging variant. *)
Definition msg_missing : jsstring := lit "Please include name, email, and message.".
Definition msg_too_long : jsstring := lit "Message is too long.".
Definition msg_not_configured : jsstring := lit "Mail service not configured.".
Definition msg_send_failed : jsstring :=
  lit "Send failed. Please email jon@schneiderdrafting.com.".

Definition failure_messages : list jsstring :=
  [msg_missing; msg_too_long; msg_not_configured; msg_send_failed].

(** ** Reading a submission *)

(** [(data.k || '').trim()] evaluates to [s]: the field is absent, falsy or a
    string. *)
Definition text_field (data : jsval) (k : string) (s : jsstring) : Prop :=
  exists v, get_prop data (lit k) = ret v /\ or_empty_trim v = ret s.

(** The handler reads [data] as a submission that is not a honeypot hit and
    whose four text fields trim to [n], [e], [p] and [m]. *)
Definition reads_submission (data : jsval) (n e p m : jsstring) : Prop :=
  (exists w, get_prop data (lit "website") = ret w /\ truthy w = false)
  /\ text_field data "name" n /\ text_field data "email" e
  /\ text_field data "phone" p /\ text_field data "message" m.

(** All four configuration variables are set to non-empty strings. *)
Definition configured (env : Env) (tenant client secret mailbox : jsstring) : Prop :=
  TENANT_ID env = Some tenant /\ CLIENT_ID env = Some client
  /\ CLIENT_SECRET env = Some secret /\ MAILBOX_ADDRESS env = Some mailbox
  /\ tenant <> [] /\ client <> [] /\ secret <> [] /\ mailbox <> [].


(** A submission that passes validation: the three required fields are
    non-empty after trimming and the message is within the cap. *)
Definition accepted (data : jsval) (n e p m : jsstring) : Prop :=
  reads_submission data n e p m
  /\ n <> [] /\ e <> [] /\ m <> [] /\ N.of_nat (length m) <= 5000.

(** The credential object both HTML variants construct. *)
Definition credential_of (env : Env) : Credential :=
  {| cred_tenantId := TENANT_ID env; cred_clientId := CLIENT_ID env;
     cred_clientSecret := CLIENT_SECRET env |}.

(** The identity library lets the relay through: the credential is
    constructed and the provider answers with the non-empty token [tok]. *)
Definition acquires_token (w : World) (env : Env) (tok : AccessToken) : Prop :=
  new_ClientSecretCredential w (credential_of env) = Ok tt
  /\ getToken w (credential_of env) graph_scope = Ok (Some tok)
  /\ token tok <> [].

(** The three calls of a relay that got as far as the send. *)
Definition relay_calls (env : Env) (url : jsstring) (init : FetchInit) : list Event :=
  [ENewCredential (TENANT_ID env) (CLIENT_ID env) (CLIENT_SECRET env);
   EGetToken graph_scope; EFetch url init].

(** A response of the table: 200 with [ok: true], or 400 or 500 with
    [ok: false]. *)
Definition well_formed (r : HttpResponse) : Prop :=
  (status r = 200 /\ ok (jsonBody r) = true)
  \/ (status r = 400 /\ ok (jsonBody r) = false)
  \/ (status r = 500 /\ ok (jsonBody r) = false).

(** The responses [index.js] can assign inside its [try] block. *)
Definition try_responses : list HttpResponse :=
  [response 200 true (lit "Thanks!");
   response 400 false msg_missing;
   response 400 false msg_too_long;
   response 500 false msg_not_configured;
   response 200 true (lit "Thanks! Your message has been sent.")].

(** A [fetch] whose body is a mail built by [build_mail] for the configured
    mailbox. *)
Definition built_by_handler (env : Env) (i : FetchInit) : Prop :=
  exists tok mailbox n e p m,
    MAILBOX_ADDRESS env = Some mailbox /\
    i = fetch_init tok (build_mail mailbox n e p m).

(** ** Escaping, as the specification words it *)

(** Ampersand, less-than, greater-than and double quote are replaced by their
    entities, every other code unit is kept. *)
Definition esc_unit (c : N) : jsstring :=
  if c =? amp then lit "&amp;"
  else if c =? lt then lit "&lt;"
  else if c =? gt then lit "&gt;"
  else if c =? quot then lit "&quot;"
  else [c].



(** ** A runtime for the examples *)

(** Exact on ASCII text: lower-casing of the Latin capitals; form decoding by
    splitting at [&] and at the first [=], with [+] read as a space and
    percent escapes below [%80] decoded; [JSON.parse] on the text of the empty
    object only (no other text is given to it in the examples but text that
    is not JSON). *)
Module Example.

Definition ascii_lower (c : N) : N := if (65 <=? c) && (c <=? 90) then c + 32 else c.

Definition hex_value (c : N) : option N :=
  if (48 <=? c) && (c <=? 57) then Some (c - 48)
  else if (65 <=? c) && (c <=? 70) then Some (c - 55)
  else if (97 <=? c) && (c <=? 102) then Some (c - 87)
  else None.

Fixpoint form_decode (s : jsstring) : jsstring :=
  match s with
  | [] => []
  | c :: t =>
      if c =? 43 then 32 :: form_decode t
      else if c =? 37 then
        match t with
        | h :: ((l :: t') as t1) =>
            match hex_value h, hex_value l with
            | Some a, Some b =>
                if a <? 8 then (16 * a + b) :: form_decode t' else c :: form_decode t
            | _, _ => c :: form_decode t
            end
        | _ => c :: form_decode t
        end
      else c :: form_decode t
  end.

(** Split at every occurrence of [sep]. *)
Fixpoint split_on (sep : N) (s : jsstring) : list jsstring :=
  match s with
  | [] => [[]]
  | c :: t =>
      if c =? sep then [] :: split_on sep t
      else match split_on sep t with
           | w :: ws => (c :: w) :: ws
           | [] => [[c]]
           end
  end.

(** Split at the first [=]. *)
Fixpoint key_value (s : jsstring) : jsstring * jsstring :=
  match s with
  | [] => ([], [])
  | c :: t => if c =? 61 then ([], t) else let '(k, v) := key_value t in (c :: k, v)
  end.

Definition form_entries (s : jsstring) : list (jsstring * jsstring) :=
  (fun kv => (form_decode kv.1, form_decode kv.2)) <$>
    (key_value <$> List.filter (fun p => negb (bool_decide (p = []))) (split_on 38 s)).

Definition add_value (m : gmap jsstring (jsstring + list jsstring)) (kv : jsstring * jsstring)
  : gmap jsstring (jsstring + list jsstring) :=
  match m !! kv.1 with
  | None => <[kv.1 := inl kv.2]> m
  | Some (inl s) => <[kv.1 := inr [s; kv.2]]> m
  | Some (inr l) => <[kv.1 := inr (l ++ [kv.2])]> m
  end.

#[global] Instance runtime : Runtime := {|
  toLowerCase := fmap ascii_lower;
  URLSearchParams_entries := form_entries;
  JSON_parse := fun s => if bool_decide (s = lit "{}") then Some (VObj ∅) else None;
  querystring_parse := fun s => foldl add_value ∅ (form_entries s)
|}.

(** [TENANT_ID] is unset. *)
Definition env_no_tenant : Env :=
  {| TENANT_ID := None; CLIENT_ID := Some (lit "client-id");
     CLIENT_SECRET := Some (lit "s3cr3t"); MAILBOX_ADDRESS := Some (lit "info@example.org") |}.

Definition env_ok : Env :=
  {| TENANT_ID := Some (lit "tenant-id"); CLIENT_ID := Some (lit "client-id");
     CLIENT_SECRET := Some (lit "s3cr3t"); MAILBOX_ADDRESS := Some (lit "info@example.org") |}.

Definition access_token : AccessToken :=
  {| token := lit "eyJ0eXAi"; expiresOnTimestamp := 1793557869 |}.

(** A token provider that answers with a token and a mail API that answers
    with [st] and the body [txt]. *)
Definition world (st : N) (txt : jsstring) : World :=
  {| new_ClientSecretCredential := fun _ => Ok tt;
     getToken := fun _ _ => Ok (Some access_token);
     acquireTokenByClientCredential := fun _ => Ok (Some {| accessToken := lit "eyJ0eXAi" |});
     fetch := fun _ _ => Ok {| resp_status := st; resp_text := Ok txt |} |}.

(** The [sendMail] URL of [env_ok]. *)
Definition url : jsstring :=
  lit "https://graph.microsoft.com/v1.0/users/info%40example.org/sendMail".

(** A form post. *)
Definition form_request (b : string) : Request :=
  {| header_content_type := Some (lit "application/x-www-form-urlencoded; charset=UTF-8");
     req_body := VStr (lit b); rawBody := Some (lit b) |}.

(** A JSON post the platform has parsed already. *)
Definition json_request (fields : list (string * jsval)) : Request :=
  {| header_content_type := Some (lit "application/json");
     req_body := VObj (list_to_map (prod_map lit id <$> fields));
     rawBody := None |}.

(** A post of text that is neither a form nor JSON. *)
Definition text_request (b : string) : Request :=
  {| header_content_type := Some (lit "text/plain");
     req_body := VStr (lit b); rawBody := Some (lit b) |}.

Definition context : Context := {| invocationId := Some (lit "b1c7") |}.

(** A token provider that rejects. *)
Definition world_token_fails : World :=
  {| new_ClientSecretCredential := fun _ => Ok tt;
     getToken := fun _ _ => Throw (Rejection (VStr (lit "AADSTS7000215: Invalid client secret")));
     acquireTokenByClientCredential :=
       fun _ => Throw (Rejection (VStr (lit "AADSTS7000215: Invalid client secret")));
     fetch := fun _ _ => Throw (Rejection VUndefined) |}.

(** The submission of the specification's example, as a form post. *)
Definition jane : Request :=
  form_request "name=Jane+Doe&email=jane%40example.com&phone=&message=Hello".

(** The same with a [website] field that is present and empty. *)
Definition jane_empty_website : Request :=
  form_request "name=Jane+Doe&email=jane%40example.com&phone=&message=Hello&website=".

(** What is sent for [jane]. *)
Definition jane_init : FetchInit :=
  fetch_init (lit "eyJ0eXAi")
    (build_mail (lit "info@example.org") (lit "Jane Doe") (lit "jane@example.com") []
       (lit "Hello")).

(** A JSON post whose message is [k] times the letter a. *)
Definition long_message (k : N) : jsstring := repeat 97 (N.to_nat k).

Definition long_request (k : N) : Request :=
  json_request [("name", VStr (lit "Jane Doe")); ("email", VStr (lit "jane@example.com"));
                ("message", VStr (long_message k))].

(** A bot's post: the hidden field is filled in. *)
Definition bot : Request := form_request "name=&website=http%3A%2F%2Fspam.example".

(** A JSON post whose [email] is a number. *)
Definition ill_typed : Request :=
  json_request [("name", VStr []); ("email", VNum (S754_finite false 5 0));
                ("message", VStr (lit "Hello"))].



End Example.

(** ** Vocabulary of the further properties *)

(** The four code units [esc] rewrites. *)
Definition is_special (c : N) : bool := (c =? amp) || (c =? lt) || (c =? gt) || (c =? quot).

(** The value of the last pair of [es] whose key is [k]. *)
Fixpoint last_value (es : list (jsstring * jsstring)) (k : jsstring) : option jsstring :=
  match es with
  | [] => None
  | e :: t =>
      match last_value t k with
      | Some v => Some v
      | None => if bool_decide (e.1 = k) then Some e.2 else None
      end
  end.

(** What a property read gives for an optional string. *)
Definition string_or_undefined (o : option jsstring) : jsval :=
  match o with Some s => VStr s | None => VUndefined end.



(** No carriage return and no two line feeds in a row. *)
Fixpoint newlines_collapsed (s : jsstring) : bool :=
  match s with
  | [] => true
  | c :: t =>
      negb (c =? 13)
      && negb ((c =? 10) && match t with d :: _ => d =? 10 | [] => false end)
      && newlines_collapsed t
  end.

(** The log lines of a run. *)
Definition log_lines (tr : list Event) : list (LogLevel * list LogArg) :=
  omap (fun e => match e with ELog l a => Some (l, a) | _ => None end) tr.

(** The responses the msal variant can return. *)
Definition msal_responses : list HttpResponse :=
  [response 200 true (lit "Thanks!");
   response 400 false (lit "Please include your name and a valid email.");
   response 200 true (lit "Thanks! Your message has been sent.");
   response 500 false
     (lit "We couldn" ++ rsquo
        ++ lit "t send your message. Please email info@schneiderdrafting.com.")].

(** The string handed to [URLSearchParams]. *)
Definition form_text (req : Request) : jsstring :=
  match req_body req with VStr s => s | _ => [] end.

(** Field [k] of a form body: the last value given for it, or the empty
    string. *)
Definition form_field `{rt : Runtime} (req : Request) (k : string) : jsstring :=
  default [] (last_value (URLSearchParams_entries (form_text req)) (lit k)).

(** No line terminator in [s]: what [.] of the pattern of [maskEmail] asks
    of every code unit. *)
Definition one_line (s : jsstring) : bool :=
  forallb (fun x => negb (Logged.is_line_terminator x)) s.

(** [env] with another value of [CLIENT_SECRET]. *)
Definition with_secret (env : Env) (s : option jsstring) : Env :=
  {| TENANT_ID := TENANT_ID env; CLIENT_ID := CLIENT_ID env;
     CLIENT_SECRET := s; MAILBOX_ADDRESS := MAILBOX_ADDRESS env |}.

(** A run left a log line at error level. *)
Definition logs_an_error (tr : list Event) : bool :=
  existsb (fun l => match l.1 with LError => true | _ => false end) (log_lines tr).

(** The fields of a body as the msal variant reads them. *)
Definition msal_field `{rt : Runtime} (raw : jsstring) (k : string) : jsstring :=
  Msal.sanitize (querystring_parse raw !! lit k).

(** msal's token request succeeds with the non-empty token [tok]. *)
Definition msal_acquires (w : World) (tok : jsstring) : Prop :=
  acquireTokenByClientCredential w [graph_scope] = Ok (Some {| accessToken := tok |})
  /\ tok <> [].

(** More inputs for the examples. *)
Module Sample.

(** A post to the msal variant. *)
Definition msal_request (b : string) : Msal.HttpRequest := {| Msal.text := Ok (lit b) |}.

(** [MAILBOX_ADDRESS] is unset. *)
Definition env_no_mailbox : Env :=
  {| TENANT_ID := Some (lit "tenant-id"); CLIENT_ID := Some (lit "client-id");
     CLIENT_SECRET := Some (lit "s3cr3t"); MAILBOX_ADDRESS := None |}.


End Sample.

(** * Properties *)

(** ** Facts about the string built-ins *)

Section Strings.

Implicit Types (s p : jsstring) (c : N).

Lemma replaceAll_from_char c rep s :
  replaceAll_from [c] rep O s = flat_map (fun x => if x =? c then rep else [x]) s.
Proof.
  induction s as [|x s IH]; [done|].
  cbn [replaceAll_from startsWith flat_map length Nat.pred].
  rewrite N.eqb_sym, andb_true_r. destruct (x =? c); cbn; by rewrite IH.
Qed.

Lemma replaceAll_char c rep s :
  replaceAll [c] rep s = flat_map (fun x => if x =? c then rep else [x]) s.
Proof. apply replaceAll_from_char. Qed.

Lemma flat_map_flat_map {A B C} (f : A -> list B) (g : B -> list C) (l : list A) :
  flat_map g (flat_map f l) = flat_map (fun x => flat_map g (f x)) l.
Proof. induction l as [|x l IH]; [done|]. cbn. by rewrite flat_map_app, IH. Qed.

Lemma esc_flat_map s : esc s = flat_map esc_unit s.
Proof.
  unfold esc, dq.
  change (lit "&") with [amp]; change (lit "<") with [lt]; change (lit ">") with [gt].
  rewrite !replaceAll_char, !flat_map_flat_map.
  apply flat_map_ext. intros c.
  unfold esc_unit, amp, lt, gt, quot.
  destruct (N.eqb_spec c 38) as [->|?]; [reflexivity|].
  destruct (N.eqb_spec c 60) as [->|?]; [reflexivity|].
  destruct (N.eqb_spec c 62) as [->|?]; [reflexivity|].
  cbn. 
  destruct (N.eqb_spec c 38); [done|]. cbn.
  destruct (N.eqb_spec c 60); [done|]. cbn.
  destruct (N.eqb_spec c 62); [done|]. cbn.
  destruct (N.eqb_spec c 34) as [->|?]; [reflexivity|]. rewrite app_nil_r. done.
Qed.





(** [includes] *)
Lemma startsWith_app p s : startsWith p (p ++ s) = true.
Proof. induction p as [|a p IH]; [done|]. cbn. by rewrite N.eqb_refl, IH. Qed.

Lemma includes_app_r s1 s2 p : includes s2 p = true -> includes (s1 ++ s2) p = true.
Proof.
  intros Hp. induction s1 as [|a s1 IH]; [done|].
  cbn [app includes]. rewrite IH. apply orb_true_r.
Qed.

Lemma includes_infix s1 p s2 : includes (s1 ++ p ++ s2) p = true.
Proof.
  apply includes_app_r. destruct (p ++ s2) eqn:E; cbn [includes]; rewrite <- E, startsWith_app; done.
Qed.








End Strings.

#[local] Arguments lit : simpl never.
#[local] Arguments build_mail : simpl never.
#[local] Arguments fetch_init : simpl never.
#[local] Arguments pretty : simpl never.
#[local] Arguments Logged.tag : simpl never.
#[local] Arguments Logged.maskEmail : simpl never.
#[local] Arguments Logged.mask : simpl never.
#[local] Arguments opt_or : simpl never.
#[local] Arguments env_falsy : simpl never.
#[local] Arguments N.leb : simpl never.
#[local] Arguments N.ltb : simpl never.
#[local] Arguments N.of_nat : simpl never.
#[local] Arguments response : simpl never.

(** ** The HTML body *)








(** ** Running the monad *)

Lemma bind_ret {A B} (a : A) (k : A -> M B) : bind (ret a) k = k a.
Proof. unfold bind, ret. by destruct (k a). Qed.

Lemma get_prop_trace v k : exists r, get_prop v k = ([], r).
Proof. destruct v; simpl; eauto. Qed.

Lemma or_empty_trim_trace v : exists r, or_empty_trim v = ([], r).
Proof. unfold or_empty_trim. destruct (js_or _ _); simpl; eauto. Qed.

Lemma sendMail_url_trace v : exists r, sendMail_url v = ([], r).
Proof. unfold sendMail_url. destruct (encodeURIComponent _); simpl; eauto. Qed.

Lemma responses_app tr1 tr2 : responses (tr1 ++ tr2) = responses tr1 ++ responses tr2.
Proof. apply omap_app. Qed.

Lemma external_calls_app tr1 tr2 :
  external_calls (tr1 ++ tr2) = external_calls tr1 ++ external_calls tr2.
Proof. apply List.filter_app. Qed.

Lemma sends_app tr1 tr2 : sends (tr1 ++ tr2) = sends tr1 ++ sends tr2.
Proof. apply omap_app. Qed.

Lemma sends_external tr : sends (external_calls tr) = sends tr.
Proof.
  unfold sends, external_calls. induction tr as [|ev tr IH]; [done|].
  destruct ev; cbn; rewrite ?IH; done.
Qed.

(** One step of a case analysis over every path of a handler: name the
    outcome of the next read, call or test. *)
Ltac split_run :=
  match goal with
  | |- context [get_prop ?v ?k] =>
      let r := fresh "r" in let E := fresh "E" in
      destruct (get_prop_trace v k) as [r E]; rewrite E; clear E; destruct r
  | |- context [or_empty_trim ?v] =>
      let r := fresh "r" in let E := fresh "E" in
      destruct (or_empty_trim_trace v) as [r E]; rewrite E; clear E; destruct r
  | |- context [sendMail_url ?v] =>
      let r := fresh "r" in let E := fresh "E" in
      destruct (sendMail_url_trace v) as [r E]; rewrite E; clear E; destruct r
  | |- context [match ?x with Ok _ => _ | Throw _ => _ end] => destruct x eqn:?
  | |- context [if ?b then _ else _] => destruct b eqn:?
  end; cbn.

Ltac unfold_run :=
  unfold Index.handler, Index.try_block, Index.catch_block,
    Logged.handler, Logged.try_block, Logged.catch_block,
    try_catch, bind, call, set_res, log, emit, throw, ret.

(** ** The two HTML variants agree *)

(** The logging variant adds log lines and catches a failing [resp.text()];
    neither changes the response, the calls made or the way the run ends. *)
Lemma handlers_agree `{rt : Runtime} w env context req :
  observe (Logged.handler w env context req) = observe (Index.handler w env req).
Proof.
  unfold observe. unfold_run.
  generalize (parseBody req) as data. intros data. cbn.
  repeat split_run; reflexivity.
Qed.

Lemma handlers_agree_sends `{rt : Runtime} w env context req :
  sends (Logged.handler w env context req).1 = sends (Index.handler w env req).1.
Proof.
  rewrite <- sends_external, <- (sends_external (Index.handler _ _ _).1).
  pose proof (handlers_agree w env context req) as E. unfold observe in E.
  injection E as _ E _. by rewrite E.
Qed.

Lemma handlers_agree_calls `{rt : Runtime} w env context req :
  external_calls (Logged.handler w env context req).1
  = external_calls (Index.handler w env req).1.
Proof.
  pose proof (handlers_agree w env context req) as E. unfold observe in E.
  by injection E as _ E _.
Qed.

Lemma handlers_agree_responses `{rt : Runtime} w env context req :
  responses (Logged.handler w env context req).1 = responses (Index.handler w env req).1.
Proof.
  pose proof (handlers_agree w env context req) as E. unfold observe in E.
  by injection E as E _ _.
Qed.

(** What holds of [index.js] is seen of both variants. *)
Lemma both_variants `{rt : Runtime} w env context req x :
  observe (Index.handler w env req) = x ->
  observe (Index.handler w env req) = x /\ observe (Logged.handler w env context req) = x.
Proof. intros E. by rewrite handlers_agree. Qed.

(** ** Every path of [index.js] *)

Lemma opt_or_falsy v d : env_falsy v = false -> exists s, v = Some s /\ opt_or v d = s /\ s <> [].
Proof. destruct v as [[|c t]|]; cbn; try discriminate. eauto. Qed.

Lemma Index_try_block_inv `{rt : Runtime} w env req :
  match Index.try_block w env req with
  | (tr, Ok _) => exists r, responses tr = [r] /\ r ∈ try_responses
  | (tr, Throw _) => responses tr = []
  end
  /\ (forall u i, (u, i) ∈ sends (Index.try_block w env req).1 -> built_by_handler env i).
Proof.
  unfold_run. generalize (parseBody req) as data. intros data. cbn.
  repeat split_run.
  all: split;
    [first [reflexivity | eexists; split; [reflexivity|]; apply list_elem_of_In; cbn; auto 8]|].
  all: cbn; intros u i Hin; try (by apply elem_of_nil in Hin).
  all: apply list_elem_of_singleton in Hin; simplify_eq.
  all: repeat match goal with
              | Hf : _ || _ = false |- _ => apply orb_false_iff in Hf; destruct Hf
              end.
  all: match goal with
       | Hf : env_falsy (MAILBOX_ADDRESS _) = false |- _ =>
           destruct (opt_or_falsy _ fallback_address Hf) as (s & Hs & -> & _)
       end.
  all: unfold built_by_handler; eexists _, s, _, _, _, _; split; [exact Hs|reflexivity].
Qed.

(** Every run of [index.js]: it returns, it has assigned one response, and
    when the [try] block threw that response is the catch-all one. *)
Lemma Index_handler_run `{rt : Runtime} w env req :
  exists tr r,
    Index.handler w env req = (tr, Ok tt)
    /\ responses tr = [r]
    /\ (r ∈ try_responses \/ r = response 500 false msg_send_failed)
    /\ (forall tr0 e, Index.try_block w env req = (tr0, Throw e) ->
          r = response 500 false msg_send_failed
          /\ responses tr0 = []
          /\ external_calls tr = external_calls tr0)
    /\ (forall u i, (u, i) ∈ sends tr -> built_by_handler env i).
Proof.
  destruct (Index_try_block_inv w env req) as (Hres & Hsends).
  unfold Index.handler, try_catch, Index.catch_block.
  destruct (Index.try_block w env req) as [tr0 [[]|e]] eqn:E.
  - destruct Hres as (r & Hr & Hin). exists tr0, r.
    split; [done|]. split; [done|]. split; [by left|]. split; [done|]. exact Hsends.
  - exists (tr0 ++ [ELog LError [LErr e]; ESetRes (response 500 false msg_send_failed)]),
           (response 500 false msg_send_failed).
    cbn [fst] in *. split; [done|]. split; [|split; [by right|split]].
    + rewrite responses_app, Hres. done.
    + intros ? ? [= <- _]. split; [done|]. split; [done|].
      rewrite external_calls_app. cbn. by rewrite app_nil_r.
    + intros u i. rewrite sends_app. cbn. rewrite app_nil_r. apply Hsends.
Qed.

Lemma try_responses_well_formed r : r ∈ try_responses -> well_formed r.
Proof.
  unfold try_responses, well_formed. intros Hr.
  repeat (apply elem_of_cons in Hr as [->|Hr]; [cbn; auto|]).
  by apply elem_of_nil in Hr.
Qed.

Lemma observe_responds_once (m1 m2 : M unit) P :
  observe m1 = observe m2 -> responds_once m2 P -> responds_once m1 P.
Proof.
  unfold observe. destruct m1 as [tr1 r1], m2 as [tr2 r2]. cbn.
  intros [= E1 _ E3] (tr & r & [= -> ->] & Hr & HP).
  exists tr1, r. subst. change (responses tr1 = responses tr) in E1. by rewrite E1.
Qed.

Lemma failure_message_cases r :
  r ∈ try_responses \/ r = response 500 false msg_send_failed ->
  status r <> 200 ->
  (status r = 400 /\ (message (jsonBody r) = msg_missing \/ message (jsonBody r) = msg_too_long))
  \/ (status r = 500
      /\ (message (jsonBody r) = msg_not_configured \/ message (jsonBody r) = msg_send_failed)).
Proof.
  unfold try_responses. intros [Hr| ->] Hst.
  - repeat (apply elem_of_cons in Hr as [->|Hr]; [cbn in *; auto; try done|]).
    by apply elem_of_nil in Hr.
  - right. cbn. auto.
Qed.

(** ** The paths one by one *)

Lemma Index_handler_unfold `{rt : Runtime} w env req :
  Index.handler w env req = try_catch (Index.try_block w env req) Index.catch_block.
Proof. done. Qed.

Lemma Logged_handler_unfold `{rt : Runtime} w env context req :
  Logged.handler w env context req
  = try_catch (Logged.try_block w env (opt_or (invocationId context) (lit "n/a")) req)
              (Logged.catch_block (opt_or (invocationId context) (lit "n/a"))).
Proof. done. Qed.

Lemma text_field_read data k s :
  text_field data k s -> bind (get_prop data (lit k)) (fun v => or_empty_trim v) = ret s.
Proof. intros (v & -> & Hs). by rewrite bind_ret. Qed.

Lemma or_empty_trim_string s : or_empty_trim (VStr s) = ret (trim s).
Proof. by destruct s. Qed.

Lemma configured_truthy env tenant client secret mailbox d :
  configured env tenant client secret mailbox ->
  env_falsy (TENANT_ID env) || env_falsy (CLIENT_ID env)
    || env_falsy (CLIENT_SECRET env) || env_falsy (MAILBOX_ADDRESS env) = false
  /\ opt_or (MAILBOX_ADDRESS env) d = mailbox.
Proof.
  intros (-> & -> & -> & -> & ? & ? & ? & ?).
  destruct tenant, client, secret, mailbox; done.
Qed.


Lemma length_nonempty (m : jsstring) k : N.of_nat (length m) = k -> 0 < k -> m <> [].
Proof. intros <- Hk ->. cbn in Hk. lia. Qed.

(** The [try] block of [index.js] once the fields have been read. *)
Lemma Index_after_reading `{rt : Runtime} w env req n e p m :
  reads_submission (parseBody req) n e p m ->
  Index.try_block w env req =
    if bool_decide (n = []) || bool_decide (e = []) || bool_decide (m = [])
    then set_res 400 false msg_missing else
    if 5000 <? N.of_nat (length m) then set_res 400 false msg_too_long else
    if env_falsy (TENANT_ID env) || env_falsy (CLIENT_ID env)
       || env_falsy (CLIENT_SECRET env) || env_falsy (MAILBOX_ADDRESS env)
    then bind (log LError [LStr (lit "Missing Graph env vars.")])
              (fun _ => set_res 500 false msg_not_configured)
    else
      bind (call (ENewCredential (TENANT_ID env) (CLIENT_ID env) (CLIENT_SECRET env))
                 (new_ClientSecretCredential w (credential_of env))) (fun _ =>
      bind (call (EGetToken graph_scope) (getToken w (credential_of env) graph_scope)) (fun tok =>
      if no_token tok then throw (Error (lit "Failed to acquire Graph token")) else
      bind (sendMail_url (MAILBOX_ADDRESS env)) (fun url =>
      let init := fetch_init (token_of tok)
                    (build_mail (opt_or (MAILBOX_ADDRESS env) fallback_address) n e p m) in
      bind (call (EFetch url init) (fetch w url init)) (fun resp =>
      if negb (resp_ok resp) then
        bind (call EText (resp_text resp)) (fun text =>
        bind (log LError [LStr (lit "Graph sendMail failed:"); LNum (resp_status resp); LStr text])
             (fun _ => throw (Error (lit "Email send failed."))))
      else set_res 200 true (lit "Thanks! Your message has been sent."))))).
Proof.
  intros ((wv & Hw & Hf) & Hn & He & Hp & Hm).
  unfold Index.try_block. cbv zeta.
  rewrite Hw, bind_ret, Hf.
  rewrite (text_field_read _ _ _ Hn), bind_ret.
  rewrite (text_field_read _ _ _ He), bind_ret.
  rewrite (text_field_read _ _ _ Hp), bind_ret.
  rewrite (text_field_read _ _ _ Hm), bind_ret.
  reflexivity.
Qed.

Lemma Index_honeypot `{rt : Runtime} w env req website :
  get_prop (parseBody req) (lit "website") = ret website ->
  truthy website = true ->
  observe (Index.handler w env req) = ([response 200 true (lit "Thanks!")], [], Ok tt).
Proof.
  intros Hw Ht. unfold Index.handler, Index.try_block. cbv zeta.
  by rewrite Hw, bind_ret, Ht.
Qed.

Lemma Index_missing `{rt : Runtime} w env req n e p m :
  reads_submission (parseBody req) n e p m ->
  n = [] \/ e = [] \/ m = [] ->
  observe (Index.handler w env req) = ([response 400 false msg_missing], [], Ok tt).
Proof.
  intros Hsub Hempty.
  rewrite Index_handler_unfold, (Index_after_reading _ _ _ _ _ _ _ Hsub).
  assert (bool_decide (n = []) || bool_decide (e = []) || bool_decide (m = []) = true) as ->.
  { destruct Hempty as [ -> | [ -> | -> ] ]; rewrite ?orb_true_r; done. }
  done.
Qed.

Lemma Index_too_long `{rt : Runtime} w env req n e p m :
  reads_submission (parseBody req) n e p m -> n <> [] -> e <> [] -> m <> [] ->
  5000 < N.of_nat (length m) ->
  observe (Index.handler w env req) = ([response 400 false msg_too_long], [], Ok tt).
Proof.
  intros Hsub Hn He Hm Hlen.
  rewrite Index_handler_unfold, (Index_after_reading _ _ _ _ _ _ _ Hsub).
  rewrite !bool_decide_eq_false_2 by done. cbn [orb].
  by rewrite (proj2 (N.ltb_lt _ _)) by done.
Qed.

(** What [index.js] does with an accepted submission once the configuration
    is complete, a token is there and the URL is built: one case per outcome
    of the [fetch]. *)
Lemma Index_relay `{rt : Runtime} w env req n e p m tenant client secret mailbox tok url :
  accepted (parseBody req) n e p m ->
  configured env tenant client secret mailbox ->
  acquires_token w env tok ->
  sendMail_url (Some mailbox) = ret url ->
  let init := fetch_init (token tok) (build_mail mailbox n e p m) in
  Index.handler w env req =
    match fetch w url init with
    | Throw err =>
        (relay_calls env url init
           ++ [ELog LError [LErr err]; ESetRes (response 500 false msg_send_failed)], Ok tt)
    | Ok resp =>
        if resp_ok resp then
          (relay_calls env url init
             ++ [ESetRes (response 200 true (lit "Thanks! Your message has been sent."))], Ok tt)
        else
          match resp_text resp with
          | Ok text =>
              (relay_calls env url init
                 ++ [EText;
                     ELog LError [LStr (lit "Graph sendMail failed:");
                                  LNum (resp_status resp); LStr text];
                     ELog LError [LErr (Error (lit "Email send failed."))];
                     ESetRes (response 500 false msg_send_failed)], Ok tt)
          | Throw err =>
              (relay_calls env url init
                 ++ [EText; ELog LError [LErr err];
                     ESetRes (response 500 false msg_send_failed)], Ok tt)
          end
    end.
Proof.
  intros (Hsub & Hn & He & Hm & Hlen) Hcfg (Hnew & Htok & Hne) Hurl init.
  rewrite Index_handler_unfold, (Index_after_reading _ _ _ _ _ _ _ Hsub).
  rewrite !bool_decide_eq_false_2 by done. cbn [orb].
  rewrite (proj2 (N.ltb_ge _ _)) by done.
  destruct (configured_truthy _ _ _ _ _ fallback_address Hcfg) as [-> ->].
  rewrite Hnew, Htok.
  destruct Hcfg as (_ & _ & _ & Hmb & _). rewrite Hmb, Hurl.
  unfold try_catch, bind, call, ret, no_token, token_of.
  rewrite bool_decide_eq_false_2 by done. fold init.
  destruct (fetch w url init) as [resp|err]; [|reflexivity].
  destruct (resp_ok resp); cbn; [reflexivity|].
  destruct (resp_text resp); reflexivity.
Qed.

Lemma Index_relay_sends `{rt : Runtime} w env req n e p m tenant client secret mailbox tok url :
  accepted (parseBody req) n e p m ->
  configured env tenant client secret mailbox ->
  acquires_token w env tok ->
  sendMail_url (Some mailbox) = ret url ->
  let init := fetch_init (token tok) (build_mail mailbox n e p m) in
  sends (Index.handler w env req).1 = [(url, init)]
  /\ exists rest, external_calls (Index.handler w env req).1 = relay_calls env url init ++ rest.
Proof.
  intros Hacc Hcfg Htok Hurl init.
  rewrite (Index_relay _ _ _ _ _ _ _ _ _ _ _ _ _ Hacc Hcfg Htok Hurl). fold init.
  destruct (fetch w url init) as [resp|err];
    [destruct (resp_ok resp); [|destruct (resp_text resp)]|];
    cbn [fst]; (split; [reflexivity|eexists; reflexivity]).
Qed.

Lemma Index_relay_2xx `{rt : Runtime}
    w env req n e p m tenant client secret mailbox tok url resp :
  accepted (parseBody req) n e p m ->
  configured env tenant client secret mailbox ->
  acquires_token w env tok ->
  sendMail_url (Some mailbox) = ret url ->
  let init := fetch_init (token tok) (build_mail mailbox n e p m) in
  fetch w url init = Ok resp -> resp_ok resp = true ->
  observe (Index.handler w env req)
  = ([response 200 true (lit "Thanks! Your message has been sent.")],
     relay_calls env url init, Ok tt).
Proof.
  intros Hacc Hcfg Htok Hurl init Hresp Hok.
  rewrite (Index_relay _ _ _ _ _ _ _ _ _ _ _ _ _ Hacc Hcfg Htok Hurl).
  fold init. by rewrite Hresp, Hok.
Qed.

Lemma Index_relay_refused `{rt : Runtime}
    w env req n e p m tenant client secret mailbox tok url resp :
  accepted (parseBody req) n e p m ->
  configured env tenant client secret mailbox ->
  acquires_token w env tok ->
  sendMail_url (Some mailbox) = ret url ->
  let init := fetch_init (token tok) (build_mail mailbox n e p m) in
  fetch w url init = Ok resp -> resp_ok resp = false ->
  observe (Index.handler w env req)
  = ([response 500 false msg_send_failed], relay_calls env url init ++ [EText], Ok tt).
Proof.
  intros Hacc Hcfg Htok Hurl init Hresp Hok.
  rewrite (Index_relay _ _ _ _ _ _ _ _ _ _ _ _ _ Hacc Hcfg Htok Hurl).
  fold init. rewrite Hresp, Hok. by destruct (resp_text resp).
Qed.

(** The msal variant on a body whose [website] value is not truthy. *)
Lemma Msal_not_hit `{rt : Runtime} w env req raw :
  Msal.text req = Ok raw ->
  Msal.qs_truthy (querystring_parse raw !! lit "website") = false ->
  Msal.sanitize (querystring_parse raw !! lit "name") <> [] ->
  Msal.sanitize (querystring_parse raw !! lit "email") <> [] ->
  exists rest r, Msal.handler w env req = (EAcquireToken [graph_scope] :: rest, Ok r).
Proof.
  intros Hraw Hw Hn He. unfold Msal.handler. rewrite Hraw.
  change (([], Ok raw) : M jsstring) with (ret raw). rewrite bind_ret. cbv zeta.
  rewrite Hw, !bool_decide_eq_false_2 by done. cbn [orb].
  unfold Msal.sendMailViaGraph, call, try_catch, bind.
  destruct (acquireTokenByClientCredential w [graph_scope]) as [res|err]; cbn; [|eauto].
  destruct (Msal.no_accessToken res); cbn; [eauto|].
  destruct (sendMail_url (MAILBOX_ADDRESS env)) as [tr [url|err]] eqn:E; cbn.
  2: { eauto. }
  destruct (fetch w url _) as [resp|err]; cbn; [|eauto].
  destruct (resp_ok resp); cbn; eauto.
Qed.

Lemma Msal_hit `{rt : Runtime} w env req raw :
  Msal.text req = Ok raw ->
  Msal.qs_truthy (querystring_parse raw !! lit "website") = true ->
  Msal.handler w env req = ([], Ok (response 200 true (lit "Thanks!"))).
Proof.
  intros Hraw Ht. unfold Msal.handler. rewrite Hraw.
  change (([], Ok raw) : M jsstring) with (ret raw). rewrite bind_ret. cbv zeta.
  by rewrite Ht.
Qed.

(** * The claims *)

(** C1. For every request the handler returns after assigning
    [context.res] exactly once, to a response of the shape
    [{ ok, message }] with status 200 and [ok: true], or status 400 or 500
    and [ok: false]; when a step of the [try] block throws (a rejected token
    request, a rejected or refused send, a type error on the parsed body), the
    catch-all turns it into the status 500 response, so the run still returns
    and no exception leaves the handler. *)
Theorem handler_always_responds `{rt : Runtime} w env context req :
  responds_once (Index.handler w env req) well_formed
  /\ responds_once (Logged.handler w env context req) well_formed
  /\ (forall tr e,
        Index.try_block w env req = (tr, Throw e) ->
        observe (Index.handler w env req)
        = ([response 500 false (lit "Send failed. Please email jon@schneiderdrafting.com.")],
           external_calls tr, Ok tt))
  /\ (forall tr e,
        Logged.try_block w env (opt_or (invocationId context) (lit "n/a")) req
        = (tr, Throw e) ->
        observe (Logged.handler w env context req)
        = ([response 500 false (lit "Send failed. Please email jon@schneiderdrafting.com.")],
           external_calls tr, Ok tt)).
Proof.
  assert (Hidx : responds_once (Index.handler w env req) well_formed).
  { destruct (Index_handler_run w env req) as (tr & r & E & Hr & [Hin| ->] & _).
    - exists tr, r. split; [done|]. split; [done|]. by apply try_responses_well_formed.
    - exists tr, (response 500 false msg_send_failed).
      split; [done|]. split; [done|]. right; right. done. }
  assert (Hlog : responds_once (Logged.handler w env context req) well_formed).
  { eapply observe_responds_once; [apply handlers_agree|done]. }
  split; [done|]. split; [done|]. split.
  - intros tr0 e E.
    destruct (Index_handler_run w env req) as (tr & r & Eh & Hr & _ & Hthrow & _).
    destruct (Hthrow _ _ E) as (-> & _ & Hx).
    unfold observe. rewrite Eh. cbn [fst snd]. by rewrite Hr, Hx.
  - intros tr0 e E.
    destruct Hlog as (tr & r & Eh & Hr & _).
    rewrite Logged_handler_unfold, E in Eh. unfold try_catch, Logged.catch_block in Eh.
    cbn in Eh. injection Eh as <-.
    rewrite responses_app in Hr. cbn in Hr.
    destruct (responses tr0) as [|r0 [|]] eqn:E0; cbn in Hr; try discriminate.
    injection Hr as <-.
    rewrite Logged_handler_unfold, E. unfold observe, try_catch, Logged.catch_block. cbn.
    rewrite responses_app, external_calls_app, E0. cbn. by rewrite app_nil_r.
Qed.

Lemma handler_always_responds_witness :
  observe (Index.handler Example.world_token_fails Example.env_ok Example.jane)
  = ([response 500 false (lit "Send failed. Please email jon@schneiderdrafting.com.")],
     [ENewCredential (Some (lit "tenant-id")) (Some (lit "client-id")) (Some (lit "s3cr3t"));
      EGetToken graph_scope], Ok tt)
  /\ observe (Logged.handler Example.world_token_fails Example.env_ok Example.context
                Example.jane)
     = ([response 500 false (lit "Send failed. Please email jon@schneiderdrafting.com.")],
        [ENewCredential (Some (lit "tenant-id")) (Some (lit "client-id")) (Some (lit "s3cr3t"));
         EGetToken graph_scope], Ok tt).
Proof.
  destruct (handler_always_responds Example.world_token_fails Example.env_ok
              Example.context Example.jane) as (_ & _ & Hidx & Hlog).
  split.
  - rewrite (Hidx
      (Index.try_block Example.world_token_fails Example.env_ok Example.jane).1
      (Rejection (VStr (lit "AADSTS7000215: Invalid client secret"))));
      vm_compute; reflexivity.
  - rewrite (Hlog
      (Logged.try_block Example.world_token_fails Example.env_ok (lit "b1c7") Example.jane).1
      (Rejection (VStr (lit "AADSTS7000215: Invalid client secret"))));
      vm_compute; reflexivity.
Defined.

(** C2. A submission whose parsed [website] field is a non-empty string is
    answered with status 200, [ok: true] and the text "Thanks!", and nothing
    leaves the process: no credential is constructed, no token is requested
    and no mail is sent, whatever the other fields hold. *)
Theorem honeypot_silent_accept `{rt : Runtime} w env context req s :
  get_prop (parseBody req) (lit "website") = ret (VStr s) ->
  s <> [] ->
  observe (Index.handler w env req) = ([response 200 true (lit "Thanks!")], [], Ok tt)
  /\ observe (Logged.handler w env context req)
     = ([response 200 true (lit "Thanks!")], [], Ok tt).
Proof.
  intros Hw Hs. apply both_variants, (Index_honeypot _ _ _ (VStr s)); [done|].
  cbn. by rewrite bool_decide_eq_false_2.
Qed.

Lemma honeypot_silent_accept_witness :
  observe (Index.handler (Example.world 202 []) Example.env_ok Example.bot)
  = ([response 200 true (lit "Thanks!")], [], Ok tt)
  /\ observe (Logged.handler (Example.world 202 []) Example.env_ok Example.context Example.bot)
     = ([response 200 true (lit "Thanks!")], [], Ok tt).
Proof.
  apply (honeypot_silent_accept _ _ _ _ (lit "http://spam.example")).
  - vm_compute. reflexivity.
  - discriminate.
Defined.




(** C4. For a submission that is valid apart from its message, a trimmed
    message of 5001 code units is answered with status 400 and [ok: false]
    and nothing leaves the process; a trimmed message of exactly 5000 code
    units passes the guard: with the configuration complete the credential is
    constructed and the token requested, and with a token the mail is sent. *)
Theorem message_length_guard `{rt : Runtime} w env context req n e p m :
  reads_submission (parseBody req) n e p m ->
  n <> [] -> e <> [] ->
  (N.of_nat (length m) = 5001 ->
     observe (Index.handler w env req)
     = ([response 400 false (lit "Message is too long.")], [], Ok tt)
     /\ observe (Logged.handler w env context req)
        = ([response 400 false (lit "Message is too long.")], [], Ok tt))
  /\ (N.of_nat (length m) = 5000 ->
      forall tenant client secret mailbox tok url,
        configured env tenant client secret mailbox ->
        acquires_token w env tok ->
        sendMail_url (Some mailbox) = ret url ->
        let init := fetch_init (token tok) (build_mail mailbox n e p m) in
        (exists rest,
           external_calls (Index.handler w env req).1 = relay_calls env url init ++ rest
           /\ external_calls (Logged.handler w env context req).1
              = relay_calls env url init ++ rest)
        /\ sends (Index.handler w env req).1 = [(url, init)]
        /\ sends (Logged.handler w env context req).1 = [(url, init)]).
Proof.
  intros Hsub Hn He. split.
  - intros Hlen.
    assert (m <> []) by (apply (length_nonempty _ _ Hlen); lia).
    apply both_variants, (Index_too_long _ _ _ n e p m); try done. lia.
  - intros Hlen tenant client secret mailbox tok url Hcfg Htok Hurl init.
    assert (m <> []) by (apply (length_nonempty _ _ Hlen); lia).
    assert (Hacc : accepted (parseBody req) n e p m).
    { split; [done|]. repeat split; try done. lia. }
    destruct (Index_relay_sends _ _ _ _ _ _ _ _ _ _ _ _ _ Hacc Hcfg Htok Hurl) as [Hs [rest Hx]].
    rewrite handlers_agree_sends, handlers_agree_calls. split; [|done].
    by exists rest.
Qed.

Lemma message_length_guard_witness :
  observe (Index.handler (Example.world 202 []) Example.env_ok (Example.long_request 5001))
  = ([response 400 false (lit "Message is too long.")], [], Ok tt)
  /\ sends (Index.handler (Example.world 202 []) Example.env_ok (Example.long_request 5000)).1
     = [(Example.url,
         fetch_init (lit "eyJ0eXAi")
           (build_mail (lit "info@example.org") (lit "Jane Doe") (lit "jane@example.com") []
              (Example.long_message 5000)))].
Proof.
  assert (Hsub : forall k,
    reads_submission (parseBody (Example.long_request k))
      (lit "Jane Doe") (lit "jane@example.com") [] (trim (Example.long_message k))).
  { intros k.
    split; [exists VUndefined; split; reflexivity|].
    split; [exists (VStr (lit "Jane Doe")); split; reflexivity|].
    split; [exists (VStr (lit "jane@example.com")); split; reflexivity|].
    split; [exists VUndefined; split; reflexivity|].
    exists (VStr (Example.long_message k)). split; [reflexivity|].
    apply or_empty_trim_string. }
  split.
  - refine (proj1 (proj1 (message_length_guard (Example.world 202 []) Example.env_ok
              Example.context (Example.long_request 5001) _ _ _ _
              (Hsub 5001) _ _) _)).
    + discriminate.
    + discriminate.
    + vm_compute. reflexivity.
  - replace (Example.long_message 5000) with (trim (Example.long_message 5000))
      by (vm_compute; reflexivity).
    refine (proj1 (proj2 (proj2 (message_length_guard (Example.world 202 []) Example.env_ok
              Example.context (Example.long_request 5000) _ _ _ _
              (Hsub 5000) _ _) _
              (lit "tenant-id") (lit "client-id") (lit "s3cr3t") (lit "info@example.org")
              Example.access_token Example.url _ _ _))).
    + discriminate.
    + discriminate.
    + vm_compute. reflexivity.
    + repeat split; discriminate.
    + repeat split. discriminate.
    + vm_compute. reflexivity.
Defined.


(** The submission of [Example.jane] as the handler reads it. *)
Lemma jane_accepted :
  accepted (parseBody Example.jane) (lit "Jane Doe") (lit "jane@example.com") [] (lit "Hello").
Proof.
  split; [|repeat split; try discriminate; vm_compute; discriminate].
  split; [exists VUndefined; split; vm_compute; reflexivity|].
  split; [exists (VStr (lit "Jane Doe")); split; vm_compute; reflexivity|].
  split; [exists (VStr (lit "jane@example.com")); split; vm_compute; reflexivity|].
  split; [exists (VStr []); split; vm_compute; reflexivity|].
  exists (VStr (lit "Hello")); split; vm_compute; reflexivity.
Defined.

Lemma env_ok_configured :
  configured Example.env_ok (lit "tenant-id") (lit "client-id") (lit "s3cr3t")
    (lit "info@example.org").
Proof. repeat split; discriminate. Defined.

Lemma world_acquires_token st txt :
  acquires_token (Example.world st txt) Example.env_ok Example.access_token.
Proof. repeat split. discriminate. Defined.





(** C7. For a valid submission that reaches the mail-build step, the mail has
    one recipient, the configured mailbox; a reply-to entry with the
    submitter's trimmed email and name; a subject that embeds both; and the
    save-to-sent-items flag.  It is the body of the one [fetch] made, and when
    the mail API answers 2xx the handler responds 200 with [ok: true]. *)
Theorem valid_submission_is_relayed `{rt : Runtime}
    w env context req n e p m tenant client secret mailbox tok url :
  accepted (parseBody req) n e p m ->
  configured env tenant client secret mailbox ->
  acquires_token w env tok ->
  sendMail_url (Some mailbox) = ret url ->
  let mail := build_mail mailbox n e p m in
  let init := fetch_init (token tok) mail in
  (toRecipients (mail_message mail)
     = [ {| emailAddress := {| address := Some mailbox; name := None |} |} ]
   /\ replyTo (mail_message mail)
      = Some [ {| emailAddress := {| address := Some e; name := Some n |} |} ]
   /\ includes (subject (mail_message mail)) n = true
   /\ includes (subject (mail_message mail)) e = true
   /\ saveToSentItems mail = VBool true)
  /\ sends (Index.handler w env req).1 = [(url, init)]
  /\ sends (Logged.handler w env context req).1 = [(url, init)]
  /\ (forall resp,
        fetch w url init = Ok resp -> resp_ok resp = true ->
        observe (Index.handler w env req)
        = ([response 200 true (lit "Thanks! Your message has been sent.")],
           relay_calls env url init, Ok tt)
        /\ observe (Logged.handler w env context req)
           = ([response 200 true (lit "Thanks! Your message has been sent.")],
              relay_calls env url init, Ok tt)).
Proof.
  intros Hacc Hcfg Htok Hurl mail init.
  split; [|split; [|split]].
  - split; [done|]. split; [done|]. split; [|split; [|done]].
    + unfold mail, build_mail. cbn [subject mail_message].
      apply (includes_infix (lit "SDS Contact: ") n).
    + unfold mail, build_mail. cbn [subject mail_message].
      replace (lit "SDS Contact: " ++ n ++ lit " <" ++ e ++ lit ">")
        with ((lit "SDS Contact: " ++ n ++ lit " <") ++ e ++ lit ">")
        by (by rewrite <- !app_assoc).
      apply (includes_infix (lit "SDS Contact: " ++ n ++ lit " <") e (lit ">")).
  - apply (Index_relay_sends _ _ _ _ _ _ _ _ _ _ _ _ _ Hacc Hcfg Htok Hurl).
  - rewrite handlers_agree_sends.
    apply (Index_relay_sends _ _ _ _ _ _ _ _ _ _ _ _ _ Hacc Hcfg Htok Hurl).
  - intros resp Hresp Hok.
    by apply both_variants, (Index_relay_2xx _ _ _ n e p m tenant client secret mailbox tok url resp).
Qed.

Lemma valid_submission_is_relayed_witness :
  sends (Index.handler (Example.world 202 []) Example.env_ok Example.jane).1
  = [(Example.url, Example.jane_init)]
  /\ observe (Index.handler (Example.world 202 []) Example.env_ok Example.jane)
     = ([response 200 true (lit "Thanks! Your message has been sent.")],
        relay_calls Example.env_ok Example.url Example.jane_init, Ok tt).
Proof.
  destruct (valid_submission_is_relayed (Example.world 202 []) Example.env_ok Example.context
              Example.jane _ _ _ _ _ _ _ _ Example.access_token Example.url
              jane_accepted env_ok_configured (world_acquires_token 202 []) eq_refl)
    as (_ & Hsends & _ & Hsent).
  split; [exact Hsends|].
  apply (Hsent {| resp_status := 202; resp_text := Ok [] |}); reflexivity.
Defined.

(** C8 (as amended). Every failing response (status 400 or 500) carries one
    of four fixed texts, so it holds nothing of the client secret, the bearer
    token, the provider's error body or a stack trace; when the mail API
    answers with a status outside 200-299 the response is the status 500
    "Send failed" text, whatever the provider's body; that text names the
    fallback contact address, while the status 500 text for a missing
    configuration does not. *)
Theorem failure_messages_are_generic `{rt : Runtime} w env context req :
  (forall r,
     r ∈ responses (Index.handler w env req).1
     \/ r ∈ responses (Logged.handler w env context req).1 ->
     status r <> 200 ->
     message (jsonBody r) ∈ failure_messages
     /\ (forall x, (forall g, g ∈ failure_messages -> includes g x = false) ->
                   includes (message (jsonBody r)) x = false)
     /\ (status r = 500 ->
         message (jsonBody r) = lit "Mail service not configured."
         \/ message (jsonBody r) = lit "Send failed. Please email jon@schneiderdrafting.com."))
  /\ includes (lit "Send failed. Please email jon@schneiderdrafting.com.") fallback_address = true
  /\ includes (lit "Mail service not configured.") fallback_address = false
  /\ (forall n e p m tenant client secret mailbox tok url resp,
        accepted (parseBody req) n e p m ->
        configured env tenant client secret mailbox ->
        acquires_token w env tok ->
        sendMail_url (Some mailbox) = ret url ->
        let init := fetch_init (token tok) (build_mail mailbox n e p m) in
        fetch w url init = Ok resp ->
        resp_ok resp = false ->
        observe (Index.handler w env req)
        = ([response 500 false (lit "Send failed. Please email jon@schneiderdrafting.com.")],
           relay_calls env url init ++ [EText], Ok tt)
        /\ observe (Logged.handler w env context req)
           = ([response 500 false (lit "Send failed. Please email jon@schneiderdrafting.com.")],
              relay_calls env url init ++ [EText], Ok tt)).
Proof.
  split; [|split; [vm_compute; reflexivity|split; [vm_compute; reflexivity|]]].
  - intros r Hin Hst.
    assert (Hin' : r ∈ responses (Index.handler w env req).1).
    { destruct Hin as [?|Hin]; [done|]. by rewrite handlers_agree_responses in Hin. }
    destruct (Index_handler_run w env req) as (tr & r0 & E & Hr & Hcases & _).
    rewrite E in Hin'. cbn [fst] in Hin'. rewrite Hr in Hin'.
    apply list_elem_of_singleton in Hin'. subst r0.
    assert (Hmsg : message (jsonBody r) ∈ failure_messages).
    { destruct (failure_message_cases r Hcases Hst) as [[_ [-> | ->]]|[_ [-> | ->]]];
        apply list_elem_of_In; cbn; auto 6. }
    split; [done|]. split; [auto|].
    intros H500. destruct (failure_message_cases r Hcases Hst) as [[H400 _]|[_ ?]]; [|done].
    rewrite H400 in H500. discriminate.
  - intros n e p m tenant client secret mailbox tok url resp Hacc Hcfg Htok Hurl init Hresp Hok.
    by apply both_variants,
      (Index_relay_refused _ _ _ n e p m tenant client secret mailbox tok url resp).
Qed.

Lemma failure_messages_are_generic_witness :
  observe (Index.handler (Example.world 403 (lit "ErrorAccessDenied")) Example.env_ok
             Example.jane)
  = ([response 500 false (lit "Send failed. Please email jon@schneiderdrafting.com.")],
     relay_calls Example.env_ok Example.url Example.jane_init ++ [EText], Ok tt)
  /\ message (jsonBody (response 500 false msg_send_failed)) ∈ failure_messages.
Proof.
  destruct (failure_messages_are_generic (Example.world 403 (lit "ErrorAccessDenied"))
              Example.env_ok Example.context Example.jane) as (Hmsg & _ & _ & Hrefused).
  split.
  - apply (Hrefused _ _ _ _ _ _ _ _ Example.access_token Example.url
             {| resp_status := 403; resp_text := Ok (lit "ErrorAccessDenied") |}
             jane_accepted env_ok_configured
             (world_acquires_token 403 (lit "ErrorAccessDenied")) eq_refl);
      reflexivity.
  - apply (Hmsg (response 500 false msg_send_failed)).
    + left. vm_compute. left.
    + discriminate.
Defined.

(** C8, as stated, fails: the status 500 answer to a missing configuration
    is a server-error message without any contact address. *)
Lemma not_configured_message_has_no_address :
  observe (Index.handler (Example.world 202 []) Example.env_no_tenant Example.jane)
  = ([response 500 false (lit "Mail service not configured.")], [], Ok tt)
  /\ includes (lit "Mail service not configured.") fallback_address = false
  /\ includes (lit "Mail service not configured.") (lit "@") = false.
Proof. split; [|split]; vm_compute; reflexivity. Qed.

(** C9. A request whose content type is not url-encoded form data, whose
    body the platform has not parsed into an object, and whose raw body
    [JSON.parse] rejects, is read as the empty mapping; the handler then
    answers with the status 400 of the required-field check, not with a
    status 500, and nothing leaves the process. *)
Theorem undecodable_body_is_rejected `{rt : Runtime} w env context req :
  includes (toLowerCase (default [] (header_content_type req)))
           (lit "application/x-www-form-urlencoded") = false ->
  typeof_object (req_body req) && truthy (req_body req) = false ->
  JSON_parse (opt_or (rawBody req) (lit "{}")) = None ->
  parseBody req = VObj ∅
  /\ observe (Index.handler w env req)
     = ([response 400 false (lit "Please include name, email, and message.")], [], Ok tt)
  /\ observe (Logged.handler w env context req)
     = ([response 400 false (lit "Please include name, email, and message.")], [], Ok tt).
Proof.
  intros Hct Hbody Hjson.
  assert (Hparse : parseBody req = VObj ∅).
  { unfold parseBody. by rewrite Hct, Hbody, Hjson. }
  split; [done|].
  apply both_variants, (Index_missing w env req [] [] [] []); [|by left].
  rewrite Hparse. unfold reads_submission, text_field.
  repeat split; exists VUndefined; split; reflexivity.
Qed.

Lemma undecodable_body_is_rejected_witness :
  parseBody (Example.text_request "hello, is anyone there?") = VObj ∅
  /\ observe (Index.handler (Example.world 202 []) Example.env_ok
                (Example.text_request "hello, is anyone there?"))
     = ([response 400 false (lit "Please include name, email, and message.")], [], Ok tt)
  /\ observe (Logged.handler (Example.world 202 []) Example.env_ok Example.context
                (Example.text_request "hello, is anyone there?"))
     = ([response 400 false (lit "Please include name, email, and message.")], [], Ok tt).
Proof. apply undecodable_body_is_rejected; vm_compute; reflexivity. Defined.

(** C10. The honeypot check is the truthiness of the [website] value as
    parsed, untrimmed: a falsy value (the empty string, or from a JSON body
    zero or [false]) is no hit even though the field is present, so the
    submission is validated and relayed like any other; a value of white space
    only, such as one space, is truthy and gets the silent 200.  The msal
    variant applies the same test to the values of [querystring.parse]. *)
Theorem honeypot_tests_truthiness `{rt : Runtime} w env context req website :
  get_prop (parseBody req) (lit "website") = ret website ->
  (truthy website = true ->
     observe (Index.handler w env req) = ([response 200 true (lit "Thanks!")], [], Ok tt)
     /\ observe (Logged.handler w env context req)
        = ([response 200 true (lit "Thanks!")], [], Ok tt))
  /\ (truthy website = false ->
      forall n e p m tenant client secret mailbox tok url resp,
        text_field (parseBody req) "name" n -> text_field (parseBody req) "email" e ->
        text_field (parseBody req) "phone" p -> text_field (parseBody req) "message" m ->
        n <> [] -> e <> [] -> m <> [] -> N.of_nat (length m) <= 5000 ->
        configured env tenant client secret mailbox ->
        acquires_token w env tok ->
        sendMail_url (Some mailbox) = ret url ->
        let init := fetch_init (token tok) (build_mail mailbox n e p m) in
        fetch w url init = Ok resp -> resp_ok resp = true ->
        observe (Index.handler w env req)
        = ([response 200 true (lit "Thanks! Your message has been sent.")],
           relay_calls env url init, Ok tt)
        /\ observe (Logged.handler w env context req)
           = ([response 200 true (lit "Thanks! Your message has been sent.")],
              relay_calls env url init, Ok tt))
  /\ (truthy (VStr []) = false /\ truthy (VNum (S754_zero false)) = false
      /\ truthy (VBool false) = false
      /\ truthy (VStr (lit " ")) = true /\ trim (lit " ") = [])
  /\ (forall req3 raw,
        Msal.text req3 = Ok raw ->
        (Msal.qs_truthy (querystring_parse raw !! lit "website") = true ->
           Msal.handler w env req3 = ([], Ok (response 200 true (lit "Thanks!"))))
        /\ (Msal.qs_truthy (querystring_parse raw !! lit "website") = false ->
            Msal.sanitize (querystring_parse raw !! lit "name") <> [] ->
            Msal.sanitize (querystring_parse raw !! lit "email") <> [] ->
            exists rest r,
              Msal.handler w env req3 = (EAcquireToken [graph_scope] :: rest, Ok r)))
  /\ (Msal.qs_truthy (Some (inl [])) = false
      /\ Msal.qs_truthy (Some (inl (lit " "))) = true).
Proof.
  intros Hw. split; [|split; [|split; [|split]]].
  - intros Ht. by apply both_variants, (Index_honeypot _ _ _ website).
  - intros Hf n e p m tenant client secret mailbox tok url resp Hn He Hp Hm
      Hn0 He0 Hm0 Hlen Hcfg Htok Hurl init Hresp Hok.
    assert (Hacc : accepted (parseBody req) n e p m).
    { split; [|done]. split; [by exists website|done]. }
    by apply both_variants,
      (Index_relay_2xx _ _ _ n e p m tenant client secret mailbox tok url resp).
  - repeat split.
  - intros req3 raw Hraw. split.
    + by apply Msal_hit.
    + by apply Msal_not_hit.
  - done.
Qed.

Lemma honeypot_tests_truthiness_witness :
  (* website= : present and empty, relayed *)
  observe (Index.handler (Example.world 202 []) Example.env_ok Example.jane_empty_website)
  = ([response 200 true (lit "Thanks! Your message has been sent.")],
     relay_calls Example.env_ok Example.url Example.jane_init, Ok tt)
  (* website=+ : one space, silently accepted *)
  /\ observe (Index.handler (Example.world 202 []) Example.env_ok
                (Example.form_request
                   "name=Jane+Doe&email=jane%40example.com&message=Hello&website=+"))
     = ([response 200 true (lit "Thanks!")], [], Ok tt)
  (* the msal variant on the same two bodies *)
  /\ Msal.handler (Example.world 202 []) Example.env_ok
       {| Msal.text := Ok (lit "name=Jane+Doe&email=jane%40example.com&website=+") |}
     = ([], Ok (response 200 true (lit "Thanks!")))
  /\ exists rest r,
       Msal.handler (Example.world 202 []) Example.env_ok
         {| Msal.text := Ok (lit "name=Jane+Doe&email=jane%40example.com&website=") |}
       = (EAcquireToken [graph_scope] :: rest, Ok r).
Proof.
  split; [|split; [|split]].
  - refine (proj1 (proj1 (proj2 (honeypot_tests_truthiness (Example.world 202 [])
              Example.env_ok Example.context Example.jane_empty_website (VStr []) _)) _
              (lit "Jane Doe") (lit "jane@example.com") [] (lit "Hello")
              (lit "tenant-id") (lit "client-id") (lit "s3cr3t") (lit "info@example.org")
              Example.access_token Example.url
              {| resp_status := 202; resp_text := Ok [] |}
              _ _ _ _ _ _ _ _ env_ok_configured (world_acquires_token 202 []) eq_refl _ _)).
    all: try (vm_compute; reflexivity); try discriminate.
    all: eexists; split; reflexivity.
  - refine (proj1 (proj1 (honeypot_tests_truthiness (Example.world 202 [])
              Example.env_ok Example.context _ (VStr (lit " ")) _) _));
      vm_compute; reflexivity.
  - refine (proj1 (proj1 (proj2 (proj2 (proj2 (honeypot_tests_truthiness
              (Example.world 202 []) Example.env_ok Example.context Example.bot
              (VStr (lit "http://spam.example")) _))))
              {| Msal.text := Ok (lit "name=Jane+Doe&email=jane%40example.com&website=+") |}
              (lit "name=Jane+Doe&email=jane%40example.com&website=+") eq_refl) _);
      vm_compute; reflexivity.
  - refine (proj2 (proj1 (proj2 (proj2 (proj2 (honeypot_tests_truthiness
              (Example.world 202 []) Example.env_ok Example.context Example.bot
              (VStr (lit "http://spam.example")) _))))
              {| Msal.text := Ok (lit "name=Jane+Doe&email=jane%40example.com&website=") |}
              (lit "name=Jane+Doe&email=jane%40example.com&website=") eq_refl) _ _ _).
    all: vm_compute; first [reflexivity | discriminate].
Defined.

(** A required field that is truthy and not a string: [trim] is not a
    function on it, and the catch-all answers. *)
Lemma ill_typed_field_is_500 :
  observe (Index.handler (Example.world 202 []) Example.env_ok Example.ill_typed)
  = ([response 500 false (lit "Send failed. Please email jon@schneiderdrafting.com.")],
     [], Ok tt).
Proof. vm_compute. reflexivity. Qed.

(** The condition of C3 on the four fields is the one the code imposes: in
    a body that is not a honeypot hit, a name, email, phone or message on
    which [trim] cannot be called ends the run in the catch-all, whatever the
    other fields are, and nothing leaves the process. *)
Lemma untrimmable_field_is_500 `{rt : Runtime} w env context req wv k v :
  get_prop (parseBody req) (lit "website") = ret wv -> truthy wv = false ->
  k ∈ ["name"; "email"; "phone"; "message"]%string ->
  get_prop (parseBody req) (lit k) = ret v ->
  or_empty_trim v = throw TypeError ->
  observe (Index.handler w env req)
  = ([response 500 false (lit "Send failed. Please email jon@schneiderdrafting.com.")],
     [], Ok tt)
  /\ observe (Logged.handler w env context req)
     = ([response 500 false (lit "Send failed. Please email jon@schneiderdrafting.com.")],
        [], Ok tt).
Proof.
  intros Hw Hf Hk Hget Htrim. apply both_variants. unfold observe.
  unfold Index.handler, Index.try_block, Index.catch_block,
    try_catch, bind, call, set_res, log, emit, throw, ret in *.
  revert Hw Hget. generalize (parseBody req) as data. intros data Hw Hget.
  rewrite Hw. cbn. rewrite Hf. cbn.
  repeat match goal with
         | |- context [get_prop ?d ?f] =>
             let r := fresh "r" in let E := fresh "Eget" in
             destruct (get_prop_trace d f) as [r E]; rewrite E; destruct r; cbn
         | |- context [or_empty_trim ?x] =>
             let r := fresh "r" in let E := fresh "Etrim" in
             destruct (or_empty_trim_trace x) as [r E]; rewrite E; destruct r; cbn
         end.
  all: try reflexivity.
  all: exfalso; apply list_elem_of_In in Hk; cbn in Hk.
  all: destruct Hk as [ <- | [ <- | [ <- | [ <- | [] ] ] ] ]; congruence.
Qed.

(** * Further properties of the code *)

(** ** [esc] as a text transformation *)

Lemma esc_app s1 s2 : esc (s1 ++ s2) = esc s1 ++ esc s2.
Proof. rewrite !esc_flat_map. apply flat_map_app. Qed.

Lemma esc_unit_plain c : is_special c = false -> esc_unit c = [c].
Proof.
  unfold is_special, esc_unit. intros H.
  repeat (apply orb_false_iff in H as [H ?]). by rewrite H, H0, H1, H2.
Qed.

Lemma esc_unit_special c : is_special c = true -> (2 <= length (esc_unit c))%nat.
Proof.
  unfold is_special, esc_unit. intros H.
  destruct (c =? amp); [vm_compute; lia|]. destruct (c =? lt); [vm_compute; lia|].
  destruct (c =? gt); [vm_compute; lia|]. destruct (c =? quot); [vm_compute; lia|].
  discriminate.
Qed.

Lemma esc_length s : (length s <= length (esc s))%nat.
Proof.
  rewrite esc_flat_map. induction s as [|c s IH]; [done|].
  cbn [flat_map]. rewrite length_app. cbn [length].
  destruct (is_special c) eqn:E.
  - apply esc_unit_special in E. lia.
  - rewrite (esc_unit_plain _ E). cbn. lia.
Qed.

Lemma esc_plain s : forallb (fun c => negb (is_special c)) s = true -> esc s = s.
Proof.
  rewrite esc_flat_map. induction s as [|c s IH]; [done|].
  cbn. intros [Hc Hs]%andb_true_iff. apply negb_true_iff in Hc.
  by rewrite (esc_unit_plain _ Hc), IH.
Qed.

Lemma esc_grows s :
  forallb (fun c => negb (is_special c)) s = false -> (length s < length (esc s))%nat.
Proof.
  induction s as [|c s IH]; [done|].
  cbn [forallb]. change (c :: s) with ([c] ++ s). rewrite esc_app, !length_app.
  pose proof (esc_length s). rewrite (esc_flat_map [c]). cbn [flat_map]. rewrite app_nil_r.
  destruct (is_special c) eqn:E; cbn [negb andb].
  - intros _. apply esc_unit_special in E. cbn [length app]. lia.
  - intros Hs. apply IH in Hs. rewrite (esc_unit_plain _ E). cbn [length]. lia.
Qed.

Lemma esc_has_special s :
  forallb (fun c => negb (is_special c)) s = false ->
  forallb (fun c => negb (is_special c)) (esc s) = false.
Proof.
  induction s as [|c s IH]; [done|].
  change (c :: s) with ([c] ++ s). rewrite esc_app, !forallb_app.
  rewrite (esc_flat_map [c]). cbn [flat_map forallb]. rewrite app_nil_r, andb_true_r.
  destruct (is_special c) eqn:E; cbn [negb andb].
  - intros _. unfold is_special, esc_unit in *.
    destruct (c =? amp); [reflexivity|]. destruct (c =? lt); [reflexivity|].
    destruct (c =? gt); [reflexivity|]. destruct (c =? quot); [reflexivity|]. discriminate.
  - intros Hs. rewrite (IH Hs). apply andb_false_r.
Qed.

(** X1. [esc] distributes over concatenation and never shortens a text; it
    leaves a text unchanged exactly when the text holds none of the four
    characters, and escaping twice differs from escaping once exactly when
    there was something to escape. *)
Theorem esc_is_a_homomorphism_and_not_idempotent s1 s2 :
  esc (s1 ++ s2) = esc s1 ++ esc s2
  /\ (length s1 <= length (esc s1))%nat
  /\ (esc s1 = s1 <-> forallb (fun c => negb (is_special c)) s1 = true)
  /\ (esc (esc s1) = esc s1 <-> esc s1 = s1).
Proof.
  split; [apply esc_app|]. split; [apply esc_length|].
  assert (Hfix : forall s, esc s = s <-> forallb (fun c => negb (is_special c)) s = true).
  { intros s. split; [|apply esc_plain].
    intros E. destruct (forallb _ s) eqn:F; [done|].
    apply esc_grows in F. rewrite E in F. lia. }
  split; [apply Hfix|]. split.
  - intros E. apply Hfix in E. apply Hfix.
    destruct (forallb (fun c => negb (is_special c)) s1) eqn:F; [done|].
    apply esc_has_special in F. congruence.
  - intros E. by rewrite !E.
Qed.

(** ** [maskEmail] *)

Lemma last_at_suffix_none s : 64 ∉ s -> Logged.last_at_suffix s = None.
Proof.
  induction s as [|c t IH]; [done|].
  intros Hs. cbn [Logged.last_at_suffix]. rewrite IH by (intros ?; apply Hs; by right).
  rewrite (proj2 (N.eqb_neq c 64)); [done|]. intros ->. apply Hs. left.
Qed.

Lemma last_at_suffix_domain l d :
  d <> [] -> 64 ∉ d -> Logged.last_at_suffix (l ++ 64 :: d) = Some (64 :: d).
Proof.
  intros Hd H64. induction l as [|c l IH].
  - cbn [app Logged.last_at_suffix]. rewrite (last_at_suffix_none _ H64).
    cbn. by rewrite bool_decide_eq_false_2.
  - cbn [app Logged.last_at_suffix]. by rewrite IH.
Qed.

(** X2. For an address on one line whose local part has at least two code
    units and whose domain is non-empty and free of [@], [maskEmail] keeps the
    first code unit and the domain and replaces the rest of the local part by
    three asterisks: the result does not depend on it. *)
Theorem maskEmail_hides_the_local_part c l d :
  l <> [] -> d <> [] -> 64 ∉ d ->
  one_line (c :: l ++ 64 :: d) = true ->
  Logged.maskEmail (Some (c :: l ++ 64 :: d)) = c :: lit "***" ++ 64 :: d.
Proof.
  intros Hl Hd H64 Hline. unfold Logged.maskEmail. unfold one_line in Hline. rewrite Hline.
  destruct l as [|x l]; [done|]. cbn [app].
  by rewrite (last_at_suffix_domain l d Hd H64).
Qed.

Lemma maskEmail_hides_the_local_part_witness :
  Logged.maskEmail (Some (lit "jon@schneiderdrafting.com")) = lit "j***@schneiderdrafting.com".
Proof.
  apply (maskEmail_hides_the_local_part 106 (lit "on") (lit "schneiderdrafting.com")).
  - discriminate.
  - discriminate.
  - intros Hin. apply list_elem_of_In in Hin. vm_compute in Hin.
    repeat (destruct Hin as [Hin|Hin]; [discriminate Hin|]). exact Hin.
  - vm_compute. reflexivity.
Defined.

(** X3. [maskEmail] answers "(missing)" for an unset or empty value, and
    leaves the text as it is, unmasked, when the local part is a single code
    unit, when there is no [@] at all, or when the text holds a line
    terminator. *)
Theorem maskEmail_leaves_unmasked c d s :
  Logged.maskEmail None = lit "(missing)"
  /\ Logged.maskEmail (Some []) = lit "(missing)"
  /\ (64 ∉ d -> Logged.maskEmail (Some (c :: 64 :: d)) = c :: 64 :: d)
  /\ (64 ∉ s -> s <> [] -> Logged.maskEmail (Some s) = s)
  /\ (one_line s = false -> Logged.maskEmail (Some s) = s).
Proof.
  split; [done|]. split; [done|]. split; [|split].
  - intros H64. unfold Logged.maskEmail.
    destruct (forallb _ _); [|done]. by rewrite (last_at_suffix_none _ H64).
  - intros H64 Hs. destruct s as [|x [|y t]]; [done| |].
    + unfold Logged.maskEmail. by destruct (forallb _ _).
    + unfold Logged.maskEmail. destruct (forallb _ _); [|done].
      rewrite last_at_suffix_none; [done|]. intros ?. apply H64. by do 2 right.
  - intros Hline. destruct s as [|x t]; [done|].
    unfold Logged.maskEmail. unfold one_line in Hline. by rewrite Hline.
Qed.

Lemma maskEmail_leaves_unmasked_witness :
  Logged.maskEmail (Some (lit "j@schneiderdrafting.com")) = lit "j@schneiderdrafting.com".
Proof.
  refine (proj1 (proj2 (proj2 (maskEmail_leaves_unmasked 106 (lit "schneiderdrafting.com") []))) _).
  intros Hin. apply list_elem_of_In in Hin. vm_compute in Hin.
  repeat (destruct Hin as [Hin|Hin]; [discriminate Hin|]). exact Hin.
Defined.

(** ** The [sendMail] URL *)









(** ** [trim] and [sanitize] *)

Lemma trimStart_suffix s : exists p, s = p ++ trimStart s.
Proof.
  induction s as [|c t [p IH]]; [by exists []|].
  cbn [trimStart]. destruct (is_ws c); [|by exists []].
  exists (c :: p). cbn. by rewrite <- IH.
Qed.

Lemma trimStart_head s c : head (trimStart s) = Some c -> is_ws c = false.
Proof.
  induction s as [|x t IH]; [done|].
  cbn [trimStart]. destruct (is_ws x) eqn:E; [done|]. by intros [= <-].
Qed.

Lemma trimStart_id s : (forall c, head s = Some c -> is_ws c = false) -> trimStart s = s.
Proof. destruct s as [|x t]; [done|]. intros H. cbn. by rewrite (H x). Qed.

Lemma trimEnd_prefix s : exists q, s = trimEnd s ++ q.
Proof.
  unfold trimEnd. destruct (trimStart_suffix (reverse s)) as [p Hp].
  exists (reverse p). rewrite <- reverse_app, <- Hp. by rewrite reverse_involutive.
Qed.

Lemma head_reverse {A} (l : list A) : head (reverse l) = last l.
Proof.
  induction l as [|x l IH] using rev_ind; [done|].
  by rewrite reverse_app, last_snoc.
Qed.

Lemma trimEnd_last s c : last (trimEnd s) = Some c -> is_ws c = false.
Proof.
  unfold trimEnd. rewrite <- head_reverse, reverse_involutive. apply trimStart_head.
Qed.

Lemma trimEnd_id s : (forall c, last s = Some c -> is_ws c = false) -> trimEnd s = s.
Proof.
  intros H. unfold trimEnd. rewrite trimStart_id; [apply reverse_involutive|].
  intros c. rewrite head_reverse. apply H.
Qed.

Lemma trim_ends s :
  (forall c, head (trim s) = Some c -> is_ws c = false)
  /\ (forall c, last (trim s) = Some c -> is_ws c = false).
Proof.
  unfold trim. split; [|apply trimEnd_last].
  intros c Hc. destruct (trimEnd_prefix (trimStart s)) as [q Hq].
  apply (trimStart_head s). rewrite Hq.
  destruct (trimEnd (trimStart s)); [done|]. exact Hc.
Qed.

Lemma trim_id s :
  (forall c, head s = Some c -> is_ws c = false) ->
  (forall c, last s = Some c -> is_ws c = false) -> trim s = s.
Proof. intros Hh Hl. unfold trim. rewrite (trimStart_id _ Hh). by apply trimEnd_id. Qed.

Lemma trim_infix s : exists p q, s = p ++ trim s ++ q.
Proof.
  destruct (trimStart_suffix s) as [p Hp].
  destruct (trimEnd_prefix (trimStart s)) as [q Hq].
  exists p, q. unfold trim. by rewrite <- Hq.
Qed.

Lemma newlines_collapsed_app_r s1 s2 :
  newlines_collapsed (s1 ++ s2) = true -> newlines_collapsed s2 = true.
Proof.
  induction s1 as [|c t IH]; [done|].
  cbn [app newlines_collapsed]. intros [_ H]%andb_true_iff. by apply IH.
Qed.

Lemma newlines_collapsed_app_l s1 s2 :
  newlines_collapsed (s1 ++ s2) = true -> newlines_collapsed s1 = true.
Proof.
  induction s1 as [|c t IH]; [done|].
  cbn [app newlines_collapsed]. intros [[Hc Hd]%andb_true_iff H]%andb_true_iff.
  rewrite Hc, (IH H), andb_true_r. cbn [andb].
  destruct t as [|d t']; [by rewrite andb_false_r|]. exact Hd.
Qed.

Lemma collapse_newlines_collapsed b s :
  newlines_collapsed (Msal.collapse_newlines b s) = true
  /\ (b = true -> forall c, head (Msal.collapse_newlines b s) = Some c -> c <> 10).
Proof.
  revert b. induction s as [|c t IH]; intros b; [done|].
  cbn [Msal.collapse_newlines]. unfold Msal.is_crlf.
  destruct (N.eqb_spec c 13) as [->|H13]; cbn [orb].
  { destruct (IH true) as [Hc Hh]. destruct b; cbn [app].
    - split; [done|]. intros _. by apply Hh.
    - split; [|done]. change (nl ++ ?x) with (10 :: x). cbn [newlines_collapsed].
      rewrite Hc, andb_true_r. cbn.
      destruct (Msal.collapse_newlines true t) as [|d r] eqn:E; [done|].
      rewrite (proj2 (N.eqb_neq d 10)); [done|]. by apply (Hh eq_refl). }
  destruct (N.eqb_spec c 10) as [->|H10].
  { destruct (IH true) as [Hc Hh]. destruct b; cbn [app].
    - split; [done|]. intros _. by apply Hh.
    - split; [|done]. change (nl ++ ?x) with (10 :: x). cbn [newlines_collapsed].
      rewrite Hc, andb_true_r. cbn.
      destruct (Msal.collapse_newlines true t) as [|d r] eqn:E; [done|].
      rewrite (proj2 (N.eqb_neq d 10)); [done|]. by apply (Hh eq_refl). }
  destruct (IH false) as [Hc _]. split.
  - cbn [newlines_collapsed]. rewrite Hc.
    by rewrite (proj2 (N.eqb_neq c 13)), (proj2 (N.eqb_neq c 10)).
  - intros _ d [= <-]. done.
Qed.

Lemma collapse_newlines_id s :
  newlines_collapsed s = true -> Msal.collapse_newlines false s = s.
Proof.
  induction s as [|c t IH]; [done|].
  cbn [newlines_collapsed Msal.collapse_newlines]. unfold Msal.is_crlf.
  intros [[H13 H10]%andb_true_iff Ht]%andb_true_iff.
  apply negb_true_iff in H13. rewrite H13. cbn [orb].
  destruct (N.eqb_spec c 10) as [->|Hc].
  - cbn [andb negb] in H10. destruct t as [|d t']; [done|].
    apply negb_true_iff in H10.
    cbn [Msal.collapse_newlines]. unfold Msal.is_crlf.
    cbn [newlines_collapsed] in Ht.
    apply andb_true_iff in Ht as [[Hd13 Hd]%andb_true_iff Ht'].
    apply negb_true_iff in Hd13. rewrite Hd13, H10. cbn [orb app].
    f_equal. f_equal.
    assert (E : Msal.collapse_newlines false (d :: t') = d :: t').
    { apply IH. cbn [newlines_collapsed]. by rewrite Hd13, Hd, Ht'. }
    cbn [Msal.collapse_newlines] in E. unfold Msal.is_crlf in E.
    rewrite Hd13, H10 in E. cbn [orb] in E. by injection E.
  - f_equal. by apply IH.
Qed.

(** X5. What [sanitize] returns holds no carriage return and no two line
    feeds in a row, neither starts nor ends with white space, and is left
    unchanged by sanitizing it again. *)
Theorem sanitize_output v :
  let t := Msal.sanitize v in
  newlines_collapsed t = true
  /\ (forall c, head t = Some c -> is_ws c = false)
  /\ (forall c, last t = Some c -> is_ws c = false)
  /\ Msal.sanitize (Some (inl t)) = t.
Proof.
  intros t. unfold t, Msal.sanitize.
  set (x := Msal.collapse_newlines false (Msal.String_or_empty v)).
  assert (Hx : newlines_collapsed (trim x) = true).
  { destruct (trim_infix x) as (p & q & E).
    pose proof (proj1 (collapse_newlines_collapsed false (Msal.String_or_empty v))) as H.
    fold x in H. rewrite E in H.
    by apply newlines_collapsed_app_r, newlines_collapsed_app_l in H. }
  destruct (trim_ends x) as [Hh Hl].
  split; [done|]. split; [done|]. split; [done|].
  cbn [Msal.String_or_empty]. rewrite (collapse_newlines_id _ Hx). by apply trim_id.
Qed.

Lemma response_inj st1 o1 m1 st2 o2 m2 :
  response st1 o1 m1 = response st2 o2 m2 -> st1 = st2 /\ o1 = o2 /\ m1 = m2.
Proof. by intros [= -> -> ->]. Qed.

(** ** Form bodies *)

Lemma foldl_insert_lookup (es : list (jsstring * jsstring)) (m0 : gmap jsstring jsval) k :
  foldl (fun m e => <[e.1 := VStr e.2]> m) m0 es !! k
  = match last_value es k with Some v => Some (VStr v) | None => m0 !! k end.
Proof.
  revert m0. induction es as [|e es IH]; intros m0; [done|].
  cbn [foldl last_value]. rewrite IH. destruct (last_value es k); [done|].
  case_bool_decide as Hk.
  - subst k. by rewrite lookup_insert_eq.
  - by rewrite lookup_insert_ne.
Qed.

Lemma fromEntries_get es k :
  get_prop (fromEntries es) k = ret (string_or_undefined (last_value es k)).
Proof.
  unfold fromEntries, get_prop. rewrite foldl_insert_lookup, lookup_empty.
  by destruct (last_value es k).
Qed.

Lemma parseBody_form `{rt : Runtime} req :
  includes (toLowerCase (default [] (header_content_type req)))
           (lit "application/x-www-form-urlencoded") = true ->
  parseBody req = fromEntries (URLSearchParams_entries (form_text req)).
Proof. intros H. unfold parseBody. by rewrite H. Qed.

Lemma form_text_field `{rt : Runtime} req k :
  includes (toLowerCase (default [] (header_content_type req)))
           (lit "application/x-www-form-urlencoded") = true ->
  text_field (parseBody req) k (trim (form_field req k)).
Proof.
  intros H. rewrite (parseBody_form _ H). unfold text_field, form_field.
  eexists. split; [apply fromEntries_get|].
  destruct (last_value _ _) as [s|]; [apply or_empty_trim_string|done].
Qed.

(** X6. Under the form content type every field the handler reads is the
    last value the body gives for it, a string, or [undefined]: a non-empty
    [website] is a honeypot hit, and otherwise the four text fields are read
    without a fault, so a form post is never answered with the catch-all
    status 500 unless a call has left the process. *)
Theorem form_post_is_never_a_fault `{rt : Runtime} w env context req :
  includes (toLowerCase (default [] (header_content_type req)))
           (lit "application/x-www-form-urlencoded") = true ->
  (forall k, get_prop (parseBody req) k
             = ret (string_or_undefined
                      (last_value (URLSearchParams_entries (form_text req)) k)))
  /\ (form_field req "website" <> [] ->
      observe (Index.handler w env req) = ([response 200 true (lit "Thanks!")], [], Ok tt))
  /\ (form_field req "website" = [] ->
      reads_submission (parseBody req)
        (trim (form_field req "name")) (trim (form_field req "email"))
        (trim (form_field req "phone")) (trim (form_field req "message")))
  /\ (external_calls (Index.handler w env req).1 = [] ->
      responses (Index.handler w env req).1
      <> [response 500 false (lit "Send failed. Please email jon@schneiderdrafting.com.")])
  /\ (external_calls (Logged.handler w env context req).1 = [] ->
      responses (Logged.handler w env context req).1
      <> [response 500 false (lit "Send failed. Please email jon@schneiderdrafting.com.")]).
Proof.
  intros Hform.
  assert (Hget : forall k, get_prop (parseBody req) k
             = ret (string_or_undefined
                      (last_value (URLSearchParams_entries (form_text req)) k))).
  { intros k. rewrite (parseBody_form _ Hform). apply fromEntries_get. }
  assert (Hhit : form_field req "website" <> [] ->
      observe (Index.handler w env req) = ([response 200 true (lit "Thanks!")], [], Ok tt)).
  { intros Hw. apply (Index_honeypot _ _ _ _ (Hget (lit "website"))).
    unfold form_field in Hw. destruct (last_value _ _) as [s|]; [|done].
    cbn in *. by rewrite bool_decide_eq_false_2. }
  assert (Hsub : form_field req "website" = [] ->
      reads_submission (parseBody req)
        (trim (form_field req "name")) (trim (form_field req "email"))
        (trim (form_field req "phone")) (trim (form_field req "message"))).
  { intros Hw. split; [|repeat split; by apply form_text_field].
    eexists. split; [apply Hget|].
    unfold form_field in Hw. destruct (last_value _ _) as [s|]; [|done].
    cbn in *. subst s. done. }
  assert (Hidx : external_calls (Index.handler w env req).1 = [] ->
      responses (Index.handler w env req).1
      <> [response 500 false (lit "Send failed. Please email jon@schneiderdrafting.com.")]).
  { destruct (decide (form_field req "website" = [])) as [Hw|Hw].
    - intros Hcalls. rewrite Index_handler_unfold, (Index_after_reading _ _ _ _ _ _ _ (Hsub Hw)) in *.
      revert Hcalls.
      unfold try_catch, bind, call, set_res, log, emit, throw, ret, Index.catch_block. cbn.
      repeat split_run.
      all: first [ by intros [=] | intros _ E; vm_compute in E; discriminate E ].
    - intros _. pose proof (Hhit Hw) as E. unfold observe in E. injection E as E _ _.
      change (responses (Index.handler w env req).1 = [response 200 true (lit "Thanks!")]) in E.
      rewrite E. discriminate. }
  split; [done|]. split; [done|]. split; [done|]. split; [done|].
  rewrite handlers_agree_calls, handlers_agree_responses. exact Hidx.
Qed.

Lemma form_post_is_never_a_fault_witness :
  reads_submission (parseBody Example.jane)
    (trim (form_field Example.jane "name")) (trim (form_field Example.jane "email"))
    (trim (form_field Example.jane "phone")) (trim (form_field Example.jane "message")).
Proof.
  refine (proj1 (proj2 (proj2 (form_post_is_never_a_fault (Example.world 202 [])
            Example.env_ok Example.context Example.jane _))) _); vm_compute; reflexivity.
Defined.

(** ** What every run of the HTML variants keeps to *)

(** One step of the case analysis over every path, keeping what was read. *)
Ltac split_keep :=
  match goal with
  | |- context [get_prop ?v ?k] =>
      let r := fresh "r" in let E := fresh "Eget" in
      destruct (get_prop_trace v k) as [r E]; rewrite E; destruct r
  | |- context [or_empty_trim ?v] =>
      let r := fresh "r" in let E := fresh "Etrim" in
      destruct (or_empty_trim_trace v) as [r E]; rewrite E; destruct r
  | |- context [sendMail_url ?v] =>
      let r := fresh "r" in let E := fresh "Eurl" in
      destruct (sendMail_url_trace v) as [r E]; rewrite E; destruct r
  | |- context [match ?x with Ok _ => _ | Throw _ => _ end] => destruct x eqn:?
  | |- context [if ?b then _ else _] => destruct b eqn:?
  end; cbn.

Lemma env_truthy_configured env :
  env_falsy (TENANT_ID env) || env_falsy (CLIENT_ID env)
    || env_falsy (CLIENT_SECRET env) || env_falsy (MAILBOX_ADDRESS env) = false ->
  exists tenant client secret mailbox, configured env tenant client secret mailbox.
Proof.
  intros H. repeat (apply orb_false_iff in H as [H ?]).
  destruct (opt_or_falsy _ [] H) as (t & Ht & _ & ?).
  destruct (opt_or_falsy _ [] H2) as (c & Hc & _ & ?).
  destruct (opt_or_falsy _ [] H1) as (s & Hs & _ & ?).
  destruct (opt_or_falsy _ [] H0) as (m & Hm & _ & ?).
  by exists t, c, s, m.
Qed.

(** Whenever [index.js] lets a call leave the process, the submission had
    been accepted, the configuration was complete. *)
Lemma Index_calls_need_acceptance `{rt : Runtime} w env req :
  external_calls (Index.handler w env req).1 <> [] ->
  (exists n e p m, accepted (parseBody req) n e p m)
  /\ (exists tenant client secret mailbox, configured env tenant client secret mailbox).
Proof.
  unfold_run. generalize (parseBody req) as data. intros data. cbn.
  repeat split_keep.
  all: intros Hcalls; try done.
  all: split; [|by apply env_truthy_configured].
  all: repeat match goal with
         | H : _ || _ = false |- _ => apply orb_false_iff in H as [? ?]
         | H : bool_decide _ = false |- _ => apply bool_decide_eq_false in H
         | H : (_ <? _) = false |- _ => apply N.ltb_ge in H
         end.
  all: match goal with
       | En : get_prop _ (lit "name") = ([], Ok ?vn), Tn : or_empty_trim ?vn = ([], Ok ?n),
         Ee : get_prop _ (lit "email") = ([], Ok ?ve), Te : or_empty_trim ?ve = ([], Ok ?e),
         Ep : get_prop _ (lit "phone") = ([], Ok ?vp), Tp : or_empty_trim ?vp = ([], Ok ?p),
         Em : get_prop _ (lit "message") = ([], Ok ?vm), Tm : or_empty_trim ?vm = ([], Ok ?m),
         Ew : get_prop _ (lit "website") = ([], Ok ?vw), Tw : truthy ?vw = false |- _ =>
           exists n, e, p, m;
           split; [split; [by exists vw|];
                   split; [by exists vn|]; split; [by exists ve|];
                   split; [by exists vp|by exists vm]|done]
       end.
Qed.

(** X7. A call leaves the process (credential construction, token request,
    fetch) only for a submission that passed validation and with all four
    configuration variables set: a honeypot hit, an invalid submission or an
    incomplete configuration never reaches the identity provider or Graph. *)
Theorem calls_need_an_accepted_submission `{rt : Runtime} w env context req :
  external_calls (Index.handler w env req).1 <> []
  \/ external_calls (Logged.handler w env context req).1 <> [] ->
  (exists n e p m, accepted (parseBody req) n e p m)
  /\ (exists tenant client secret mailbox, configured env tenant client secret mailbox).
Proof.
  intros H. apply (Index_calls_need_acceptance w).
  destruct H as [H|H]; [done|]. by rewrite handlers_agree_calls in H.
Qed.

Lemma calls_need_an_accepted_submission_witness :
  (exists n e p m, accepted (parseBody Example.jane) n e p m)
  /\ (exists tenant client secret mailbox,
        configured Example.env_ok tenant client secret mailbox).
Proof.
  apply (calls_need_an_accepted_submission (Example.world 202 []) Example.env_ok
           Example.context Example.jane).
  left. vm_compute. discriminate.
Defined.

Lemma Index_calls_in_order `{rt : Runtime} w env req :
  exists url init,
    external_calls (Index.handler w env req).1 `prefix_of` relay_calls env url init ++ [EText]
    /\ (EText ∈ external_calls (Index.handler w env req).1 ->
        exists resp, fetch w url init = Ok resp /\ resp_ok resp = false).
Proof.
  unfold_run. generalize (parseBody req) as data. intros data. cbn.
  repeat split_keep.
  all: try (exists [], (fetch_init [] (build_mail [] [] [] [] []));
            split; [first [apply prefix_nil | by eexists]|];
            intros Hin; apply list_elem_of_In in Hin; cbn in Hin; intuition discriminate).
  all: eexists _, _; (split; [by eexists|]).
  all: try (intros Hin; apply list_elem_of_In in Hin; cbn in Hin; intuition discriminate).
  all: intros _; eexists; split; [eassumption|]; by apply negb_true_iff.
Qed.

(** X8. The calls of a run are a prefix of: construct the credential, request
    the token, fetch once, read the response text.  So there is at most one
    token request and one fetch per request, the fetch never comes before the
    token request, and the response text is read only after a fetch that was
    answered with a status outside 200-299. *)
Theorem calls_are_made_in_order `{rt : Runtime} w env context req :
  exists url init,
    external_calls (Index.handler w env req).1 `prefix_of` relay_calls env url init ++ [EText]
    /\ external_calls (Logged.handler w env context req).1
       `prefix_of` relay_calls env url init ++ [EText]
    /\ (EText ∈ external_calls (Index.handler w env req).1 ->
        exists resp, fetch w url init = Ok resp /\ resp_ok resp = false).
Proof.
  destruct (Index_calls_in_order w env req) as (url & init & Hp & Ht).
  exists url, init. by rewrite handlers_agree_calls.
Qed.

Lemma Index_send_needs_token `{rt : Runtime} w env req url init :
  (url, init) ∈ sends (Index.handler w env req).1 ->
  exists tok mailbox n e p m,
    getToken w (credential_of env) graph_scope = Ok (Some tok)
    /\ token tok <> []
    /\ MAILBOX_ADDRESS env = Some mailbox
    /\ sendMail_url (Some mailbox) = ret url
    /\ accepted (parseBody req) n e p m
    /\ init = fetch_init (token tok) (build_mail mailbox n e p m).
Proof.
  unfold_run. generalize (parseBody req) as data. intros data. cbn.
  repeat split_keep.
  all: intros Hin; try (by apply elem_of_nil in Hin).
  all: apply list_elem_of_singleton in Hin; injection Hin as -> ->.
  all: repeat match goal with
         | H : _ || _ = false |- _ => apply orb_false_iff in H as [? ?]
         | H : bool_decide _ = false |- _ => apply bool_decide_eq_false in H
         | H : (_ <? _) = false |- _ => apply N.ltb_ge in H
         end.
  all: match goal with
       | Hf : env_falsy (MAILBOX_ADDRESS _) = false |- _ =>
           destruct (opt_or_falsy _ fallback_address Hf) as (mb & Hmb & Hor & _)
       end.
  all: match goal with
       | Ht : getToken _ _ _ = Ok ?t, Hn : no_token ?t = false |- _ =>
           destruct t as [tok|]; [|discriminate Hn];
           cbn in Hn; apply bool_decide_eq_false in Hn
       end.
  all: match goal with
       | En : get_prop _ (lit "name") = ([], Ok ?vn), Tn : or_empty_trim ?vn = ([], Ok ?n),
         Ee : get_prop _ (lit "email") = ([], Ok ?ve), Te : or_empty_trim ?ve = ([], Ok ?e),
         Ep : get_prop _ (lit "phone") = ([], Ok ?vp), Tp : or_empty_trim ?vp = ([], Ok ?p),
         Em : get_prop _ (lit "message") = ([], Ok ?vm), Tm : or_empty_trim ?vm = ([], Ok ?m),
         Ew : get_prop _ (lit "website") = ([], Ok ?vw), Tw : truthy ?vw = false |- _ =>
           exists tok, mb, n, e, p, m;
           split; [done|]; split; [done|]; split; [done|];
           split; [by rewrite <- Hmb|];
           split; [split; [split; [by exists vw|];
                           split; [by exists vn|]; split; [by exists ve|];
                           split; [by exists vp|by exists vm]|done]|];
           by rewrite Hor
       end.
Qed.

(** X9. Every fetch of a run carries the bearer token the provider returned,
    which is non-empty, goes to the URL of the configured mailbox, and has as
    body the mail built from the trimmed fields of an accepted submission:
    no mail is sent without a token. *)
Theorem no_send_without_a_token `{rt : Runtime} w env context req url init :
  (url, init) ∈ sends (Index.handler w env req).1
  \/ (url, init) ∈ sends (Logged.handler w env context req).1 ->
  exists tok mailbox n e p m,
    getToken w (credential_of env) graph_scope = Ok (Some tok)
    /\ token tok <> []
    /\ MAILBOX_ADDRESS env = Some mailbox
    /\ sendMail_url (Some mailbox) = ret url
    /\ accepted (parseBody req) n e p m
    /\ init = fetch_init (token tok) (build_mail mailbox n e p m)
    /\ Authorization init = lit "Bearer " ++ token tok.
Proof.
  intros H.
  assert (H' : (url, init) ∈ sends (Index.handler w env req).1).
  { destruct H as [H|H]; [done|]. by rewrite handlers_agree_sends in H. }
  destruct (Index_send_needs_token w env req url init H')
    as (tok & mailbox & n & e & p & m & Ht & Hne & Hmb & Hurl & Hacc & ->).
  by exists tok, mailbox, n, e, p, m.
Qed.

Lemma no_send_without_a_token_witness :
  exists tok mailbox n e p m,
    getToken (Example.world 202 []) (credential_of Example.env_ok) graph_scope = Ok (Some tok)
    /\ token tok <> []
    /\ MAILBOX_ADDRESS Example.env_ok = Some mailbox
    /\ sendMail_url (Some mailbox) = ret Example.url
    /\ accepted (parseBody Example.jane) n e p m
    /\ Example.jane_init = fetch_init (token tok) (build_mail mailbox n e p m)
    /\ Authorization Example.jane_init = lit "Bearer " ++ token tok.
Proof.
  apply (no_send_without_a_token (Example.world 202 []) Example.env_ok Example.context
           Example.jane).
  left. vm_compute. left.
Defined.

Lemma Index_success_sound `{rt : Runtime} w env req :
  responses (Index.handler w env req).1
  = [response 200 true (lit "Thanks! Your message has been sent.")] ->
  exists url init resp,
    external_calls (Index.handler w env req).1 = relay_calls env url init
    /\ fetch w url init = Ok resp
    /\ resp_ok resp = true.
Proof.
  unfold_run. generalize (parseBody req) as data. intros data. cbn.
  repeat split_keep.
  all: intros Hres; try discriminate Hres.
  all: try (vm_compute in Hres; discriminate Hres).
  all: eexists _, _, _; split; [reflexivity|]; split; [eassumption|]; by apply negb_false_iff.
Qed.

(** X10. The response "Thanks! Your message has been sent." is given only
    after the three calls of a relay, the last of them a fetch that the mail
    API answered with a status in 200-299. *)
Theorem success_means_the_mail_was_accepted `{rt : Runtime} w env context req :
  responses (Index.handler w env req).1
  = [response 200 true (lit "Thanks! Your message has been sent.")]
  \/ responses (Logged.handler w env context req).1
     = [response 200 true (lit "Thanks! Your message has been sent.")] ->
  exists url init resp,
    external_calls (Index.handler w env req).1 = relay_calls env url init
    /\ external_calls (Logged.handler w env context req).1 = relay_calls env url init
    /\ fetch w url init = Ok resp
    /\ resp_ok resp = true.
Proof.
  intros H.
  assert (H' : responses (Index.handler w env req).1
               = [response 200 true (lit "Thanks! Your message has been sent.")]).
  { destruct H as [H|H]; [done|]. by rewrite handlers_agree_responses in H. }
  destruct (Index_success_sound w env req H') as (url & init & resp & Hc & Hf & Hok).
  exists url, init, resp. by rewrite handlers_agree_calls.
Qed.

Lemma success_means_the_mail_was_accepted_witness :
  exists url init resp,
    external_calls (Index.handler (Example.world 202 []) Example.env_ok Example.jane).1
    = relay_calls Example.env_ok url init
    /\ external_calls (Logged.handler (Example.world 202 []) Example.env_ok Example.context
                         Example.jane).1
       = relay_calls Example.env_ok url init
    /\ fetch (Example.world 202 []) url init = Ok resp
    /\ resp_ok resp = true.
Proof.
  apply (success_means_the_mail_was_accepted (Example.world 202 []) Example.env_ok
           Example.context Example.jane).
  left. vm_compute. reflexivity.
Defined.

Lemma Index_errors_are_logged `{rt : Runtime} w env req :
  exists tr r, Index.handler w env req = (tr, Ok tt) /\ responses tr = [r]
    /\ logs_an_error tr = (status r =? 500).
Proof.
  unfold_run. generalize (parseBody req) as data. intros data. cbn.
  repeat split_run; eexists _, _; (split; [reflexivity|]); split; reflexivity.
Qed.

Lemma Logged_errors_are_logged `{rt : Runtime} w env context req :
  exists tr r, Logged.handler w env context req = (tr, Ok tt) /\ responses tr = [r]
    /\ logs_an_error tr = (status r =? 500).
Proof.
  unfold_run. generalize (parseBody req) as data. intros data. cbn.
  repeat split_run; eexists _, _; (split; [reflexivity|]); split; reflexivity.
Qed.

(** X11. In both HTML variants a run writes a log line at error level exactly
    when it answers with status 500: honeypot hits, validation failures and
    successful sends never do, every server error does. *)
Theorem server_errors_and_only_they_are_logged_as_errors `{rt : Runtime} w env context req :
  (exists tr r, Index.handler w env req = (tr, Ok tt) /\ responses tr = [r]
     /\ logs_an_error tr = (status r =? 500))
  /\ (exists tr r, Logged.handler w env context req = (tr, Ok tt) /\ responses tr = [r]
        /\ logs_an_error tr = (status r =? 500)).
Proof. split; [apply Index_errors_are_logged | apply Logged_errors_are_logged]. Qed.

(** X12. The logging variant and [index.js] are interchangeable for the
    caller and for the collaborators: on the same request, configuration and
    world they assign the same response, make the same calls with the same
    arguments in the same order, and both return. *)
Theorem logging_variant_agrees_with_index `{rt : Runtime} w env context req :
  observe (Logged.handler w env context req) = observe (Index.handler w env req)
  /\ sends (Logged.handler w env context req).1 = sends (Index.handler w env req).1
  /\ (Logged.handler w env context req).2 = Ok tt
  /\ (Index.handler w env req).2 = Ok tt.
Proof.
  split; [apply handlers_agree|]. split; [apply handlers_agree_sends|].
  destruct (Index_handler_run w env req) as (tr & r & E & _).
  pose proof (handlers_agree w env context req) as H. unfold observe in H.
  injection H as _ _ H. rewrite H, E. done.
Qed.

(** X13. The log lines and the response of the logging variant do not depend
    on the value of [CLIENT_SECRET], only on whether it is set: two runs whose
    secrets are both set or both unset, and to which the identity library
    answers alike, write the same log. *)
Theorem log_lines_do_not_depend_on_the_secret `{rt : Runtime} w env context req s1 s2 :
  env_falsy s1 = env_falsy s2 ->
  new_ClientSecretCredential w (credential_of (with_secret env s1))
  = new_ClientSecretCredential w (credential_of (with_secret env s2)) ->
  getToken w (credential_of (with_secret env s1)) graph_scope
  = getToken w (credential_of (with_secret env s2)) graph_scope ->
  log_lines (Logged.handler w (with_secret env s1) context req).1
  = log_lines (Logged.handler w (with_secret env s2) context req).1
  /\ responses (Logged.handler w (with_secret env s1) context req).1
     = responses (Logged.handler w (with_secret env s2) context req).1.
Proof.
  intros Hs Hnew Htok. unfold credential_of, with_secret in Hnew, Htok. cbn in Hnew, Htok.
  unfold_run. unfold Logged.mask. cbn [TENANT_ID CLIENT_ID CLIENT_SECRET MAILBOX_ADDRESS with_secret].
  rewrite Hs, Hnew, Htok.
  generalize (parseBody req) as data. intros data. cbn.
  repeat split_run; split; reflexivity.
Qed.

Lemma log_lines_do_not_depend_on_the_secret_witness :
  log_lines (Logged.handler (Example.world 202 [])
               (with_secret Example.env_ok (Some (lit "s3cr3t"))) Example.context
               Example.jane).1
  = log_lines (Logged.handler (Example.world 202 [])
                 (with_secret Example.env_ok (Some (lit "0ther-s3cr3t"))) Example.context
                 Example.jane).1.
Proof.
  apply (log_lines_do_not_depend_on_the_secret (Example.world 202 []) Example.env_ok
           Example.context Example.jane (Some (lit "s3cr3t")) (Some (lit "0ther-s3cr3t")));
    reflexivity.
Defined.

(** ** The msal variant *)

Lemma Msal_handler_body `{rt : Runtime} w env req raw :
  Msal.text req = Ok raw ->
  Msal.handler w env req
  = try_catch
      (if Msal.qs_truthy (querystring_parse raw !! lit "website")
       then Msal.respond 200 true (lit "Thanks!")
       else if bool_decide (msal_field raw "name" = []) || bool_decide (msal_field raw "email" = [])
       then Msal.respond 400 false (lit "Please include your name and a valid email.")
       else bind (Msal.sendMailViaGraph w env
                    (Msal.buildMessage env (msal_field raw "name") (msal_field raw "email")
                       (msal_field raw "phone") (msal_field raw "message")))
                 (fun _ => Msal.respond 200 true (lit "Thanks! Your message has been sent.")))
      (fun err =>
         bind (log LInfo [LStr (lit "Contact error:"); LErrMessage err])
           (fun _ => Msal.respond 500 false
              (lit "We couldn" ++ rsquo
                 ++ lit "t send your message. Please email info@schneiderdrafting.com."))).
Proof.
  intros Hraw. unfold Msal.handler. rewrite Hraw.
  change (([], Ok raw) : M jsstring) with (ret raw). by rewrite bind_ret.
Qed.

(** X14. The msal variant always returns a response, one of its four fixed
    ones, with status 200 and [ok: true] or status 400 or 500 and [ok: false];
    it makes at most one token request and then at most one fetch; and it
    answers "Thanks! Your message has been sent." only after a fetch that the
    mail API answered with a status in 200-299. *)
Theorem msal_handler_always_responds `{rt : Runtime} w env req :
  exists tr r url init,
    Msal.handler w env req = (tr, Ok r)
    /\ r ∈ msal_responses
    /\ well_formed r
    /\ external_calls tr `prefix_of` [EAcquireToken [graph_scope]; EFetch url init]
    /\ (r = response 200 true (lit "Thanks! Your message has been sent.") ->
        external_calls tr = [EAcquireToken [graph_scope]; EFetch url init]
        /\ exists resp, fetch w url init = Ok resp /\ resp_ok resp = true).
Proof.
  unfold Msal.handler, Msal.sendMailViaGraph, Msal.respond,
    try_catch, bind, call, log, emit, throw, ret.
  destruct (Msal.text req) as [raw|err]; cbn.
  2: { eexists _, _, [], (fetch_init [] (build_mail [] [] [] [] [])).
       split; [reflexivity|]. split; [apply list_elem_of_In; cbn; auto 6|].
       split; [right; right; done|]. split; [apply prefix_nil|].
       intros E. vm_compute in E. discriminate E. }
  repeat split_run.
  all: try (eexists _, _, [], (fetch_init [] (build_mail [] [] [] [] []));
            split; [reflexivity|]; split; [apply list_elem_of_In; cbn; auto 6|];
            split; [first [left; done | right; left; done | right; right; done]|];
            split; [first [apply prefix_nil | by eexists]|];
            intros E; vm_compute in E; discriminate E).
  all: eexists _, _, _, _; split; [reflexivity|]; split; [apply list_elem_of_In; cbn; auto 6|];
       split; [first [left; done | right; left; done | right; right; done]|];
       split; [by eexists|].
  all: try (intros E; vm_compute in E; discriminate E).
  all: intros _; split; [reflexivity|]; eexists; split; [eassumption|].
  all: by apply negb_false_iff.
Qed.

Lemma Msal_relay `{rt : Runtime} w env req raw tok url :
  Msal.text req = Ok raw ->
  Msal.qs_truthy (querystring_parse raw !! lit "website") = false ->
  msal_field raw "name" <> [] -> msal_field raw "email" <> [] ->
  msal_acquires w tok ->
  sendMail_url (MAILBOX_ADDRESS env) = ret url ->
  let init := fetch_init tok
                (Msal.buildMessage env (msal_field raw "name") (msal_field raw "email")
                   (msal_field raw "phone") (msal_field raw "message")) in
  Msal.handler w env req =
    match fetch w url init with
    | Ok resp =>
        if resp_ok resp
        then ([EAcquireToken [graph_scope]; EFetch url init],
              Ok (response 200 true (lit "Thanks! Your message has been sent.")))
        else ([EAcquireToken [graph_scope]; EFetch url init;
               ELog LInfo [LStr (lit "Contact error:");
                           LErrMessage (Error (lit "Graph sendMail failed ("
                                                 ++ lit (pretty (resp_status resp)) ++ lit ")"))]],
              Ok (response 500 false
                    (lit "We couldn" ++ rsquo
                       ++ lit "t send your message. Please email info@schneiderdrafting.com.")))
    | Throw err =>
        ([EAcquireToken [graph_scope]; EFetch url init;
          ELog LInfo [LStr (lit "Contact error:"); LErrMessage err]],
         Ok (response 500 false
               (lit "We couldn" ++ rsquo
                  ++ lit "t send your message. Please email info@schneiderdrafting.com.")))
    end.
Proof.
  intros Hraw Hw Hn He [Htok Hne] Hurl init.
  rewrite (Msal_handler_body _ _ _ _ Hraw), Hw.
  rewrite !bool_decide_eq_false_2 by done. cbn [orb].
  unfold Msal.sendMailViaGraph. rewrite Htok, Hurl.
  unfold try_catch, bind, call, ret, Msal.no_accessToken, Msal.accessToken_of, Msal.respond.
  cbn [accessToken]. rewrite bool_decide_eq_false_2 by done. fold init.
  destruct (fetch w url init) as [resp|err]; [|reflexivity].
  destruct (resp_ok resp); reflexivity.
Qed.

(** X15. The msal variant asks for a name and an email only: with both
    non-empty after [sanitize] it relays the submission whatever the message
    is, empty or of any length, as a plain-text body that holds the sanitized
    fields as they are (not escaped), with a reply-to entry for the email. *)
Theorem msal_relays_whatever_the_message `{rt : Runtime} w env req raw tok url resp :
  Msal.text req = Ok raw ->
  Msal.qs_truthy (querystring_parse raw !! lit "website") = false ->
  msal_field raw "name" <> [] -> msal_field raw "email" <> [] ->
  msal_acquires w tok ->
  sendMail_url (MAILBOX_ADDRESS env) = ret url ->
  let mail := Msal.buildMessage env (msal_field raw "name") (msal_field raw "email")
                (msal_field raw "phone") (msal_field raw "message") in
  fetch w url (fetch_init tok mail) = Ok resp -> resp_ok resp = true ->
  Msal.handler w env req
  = ([EAcquireToken [graph_scope]; EFetch url (fetch_init tok mail)],
     Ok (response 200 true (lit "Thanks! Your message has been sent.")))
  /\ content (body (mail_message mail))
     = lit "Name: " ++ msal_field raw "name" ++ nl
       ++ lit "Email: " ++ msal_field raw "email" ++ nl
       ++ lit "Phone: " ++ msal_field raw "phone" ++ nl ++ nl
       ++ lit "Message:" ++ nl ++ msal_field raw "message"
  /\ contentType (body (mail_message mail)) = lit "Text"
  /\ replyTo (mail_message mail)
     = Some [ {| emailAddress := {| address := Some (msal_field raw "email"); name := None |} |} ].
Proof.
  intros Hraw Hw Hn He Htok Hurl mail Hresp Hok.
  split; [|split; [|split]].
  - rewrite (Msal_relay _ _ _ _ _ _ Hraw Hw Hn He Htok Hurl). fold mail.
    by rewrite Hresp, Hok.
  - unfold mail, Msal.buildMessage. cbn [content body mail_message Msal.join].
    by rewrite <- !app_assoc.
  - done.
  - unfold mail, Msal.buildMessage. cbn [replyTo mail_message].
    by destruct (msal_field raw "email").
Qed.

Lemma msal_relays_whatever_the_message_witness :
  Msal.handler (Example.world 202 []) Example.env_ok
    (Sample.msal_request "name=Jane+Doe&email=jane%40example.com")
  = ([EAcquireToken [graph_scope];
      EFetch Example.url
        (fetch_init (lit "eyJ0eXAi")
           (Msal.buildMessage Example.env_ok (lit "Jane Doe") (lit "jane@example.com") [] []))],
     Ok (response 200 true (lit "Thanks! Your message has been sent."))).
Proof.
  refine (proj1 (msal_relays_whatever_the_message (Example.world 202 []) Example.env_ok
            (Sample.msal_request "name=Jane+Doe&email=jane%40example.com")
            (lit "name=Jane+Doe&email=jane%40example.com") (lit "eyJ0eXAi") Example.url
            {| resp_status := 202; resp_text := Ok [] |} eq_refl _ _ _ _ _ _ _)).
  - vm_compute. reflexivity.
  - vm_compute. discriminate.
  - vm_compute. discriminate.
  - split; [reflexivity|discriminate].
  - vm_compute. reflexivity.
  - reflexivity.
  - reflexivity.
Defined.

(** X16. The msal variant has no configuration check: with [MAILBOX_ADDRESS]
    unset an accepted submission is still sent, to the URL of the user
    [undefined] and with a recipient whose address is [undefined]. *)
Theorem msal_sends_without_a_mailbox `{rt : Runtime} w env req raw tok resp :
  MAILBOX_ADDRESS env = None ->
  Msal.text req = Ok raw ->
  Msal.qs_truthy (querystring_parse raw !! lit "website") = false ->
  msal_field raw "name" <> [] -> msal_field raw "email" <> [] ->
  msal_acquires w tok ->
  let mail := Msal.buildMessage env (msal_field raw "name") (msal_field raw "email")
                (msal_field raw "phone") (msal_field raw "message") in
  let url := lit "https://graph.microsoft.com/v1.0/users/undefined/sendMail" in
  fetch w url (fetch_init tok mail) = Ok resp -> resp_ok resp = true ->
  Msal.handler w env req
  = ([EAcquireToken [graph_scope]; EFetch url (fetch_init tok mail)],
     Ok (response 200 true (lit "Thanks! Your message has been sent.")))
  /\ toRecipients (mail_message mail)
     = [ {| emailAddress := {| address := None; name := None |} |} ].
Proof.
  intros Hmb Hraw Hw Hn He Htok mail url Hresp Hok.
  assert (Hurl : sendMail_url (MAILBOX_ADDRESS env) = ret url).
  { rewrite Hmb. vm_compute. reflexivity. }
  split.
  - rewrite (Msal_relay _ _ _ _ _ _ Hraw Hw Hn He Htok Hurl). fold mail.
    by rewrite Hresp, Hok.
  - unfold mail, Msal.buildMessage. cbn [toRecipients mail_message]. by rewrite Hmb.
Qed.

Lemma msal_sends_without_a_mailbox_witness :
  Msal.handler (Example.world 202 []) Sample.env_no_mailbox
    (Sample.msal_request "name=Jane+Doe&email=jane%40example.com")
  = ([EAcquireToken [graph_scope];
      EFetch (lit "https://graph.microsoft.com/v1.0/users/undefined/sendMail")
        (fetch_init (lit "eyJ0eXAi")
           (Msal.buildMessage Sample.env_no_mailbox (lit "Jane Doe")
              (lit "jane@example.com") [] []))],
     Ok (response 200 true (lit "Thanks! Your message has been sent."))).
Proof.
  refine (proj1 (msal_sends_without_a_mailbox (Example.world 202 []) Sample.env_no_mailbox
            (Sample.msal_request "name=Jane+Doe&email=jane%40example.com")
            (lit "name=Jane+Doe&email=jane%40example.com") (lit "eyJ0eXAi")
            {| resp_status := 202; resp_text := Ok [] |} eq_refl eq_refl _ _ _ _ _ _)).
  - vm_compute. reflexivity.
  - vm_compute. discriminate.
  - vm_compute. discriminate.
  - split; [reflexivity|discriminate].
  - reflexivity.
  - reflexivity.
Defined.

(** X17. In the msal variant a [website] key given more than once is a
    honeypot hit whatever its values, even all empty, because an array is
    truthy; a name or an email that is empty after [sanitize] is answered with
    status 400 before any call; and a rejected [req.text()] is answered with
    status 500 before any call. *)
Theorem msal_validation `{rt : Runtime} w env req :
  (forall raw l,
     Msal.text req = Ok raw ->
     querystring_parse raw !! lit "website" = Some (inr l) ->
     Msal.handler w env req = ([], Ok (response 200 true (lit "Thanks!"))))
  /\ (forall raw,
        Msal.text req = Ok raw ->
        Msal.qs_truthy (querystring_parse raw !! lit "website") = false ->
        msal_field raw "name" = [] \/ msal_field raw "email" = [] ->
        Msal.handler w env req
        = ([], Ok (response 400 false (lit "Please include your name and a valid email."))))
  /\ (forall err,
        Msal.text req = Throw err ->
        exists tr,
          Msal.handler w env req
          = (tr, Ok (response 500 false
                       (lit "We couldn" ++ rsquo
                          ++ lit "t send your message. Please email info@schneiderdrafting.com.")))
          /\ external_calls tr = []).
Proof.
  split; [|split].
  - intros raw l Hraw Hl. rewrite (Msal_handler_body _ _ _ _ Hraw), Hl. reflexivity.
  - intros raw Hraw Hw Hempty. rewrite (Msal_handler_body _ _ _ _ Hraw), Hw.
    assert (bool_decide (msal_field raw "name" = [])
            || bool_decide (msal_field raw "email" = []) = true) as ->.
    { destruct Hempty as [ -> | -> ]; rewrite ?orb_true_r; done. }
    reflexivity.
  - intros err Herr. unfold Msal.handler. rewrite Herr. eexists. split; reflexivity.
Qed.

Lemma msal_validation_witness :
  Msal.handler (Example.world 202 []) Example.env_ok
    (Sample.msal_request "name=Jane&email=jane%40example.com&website=&website=")
  = ([], Ok (response 200 true (lit "Thanks!")))
  /\ Msal.handler (Example.world 202 []) Example.env_ok
       (Sample.msal_request "name=%0D%0A+&email=jane%40example.com")
     = ([], Ok (response 400 false (lit "Please include your name and a valid email."))).
Proof.
  split.
  - apply (proj1 (msal_validation (Example.world 202 []) Example.env_ok _)
             (lit "name=Jane&email=jane%40example.com&website=&website=") [[]; []]);
      vm_compute; reflexivity.
  - apply (proj1 (proj2 (msal_validation (Example.world 202 []) Example.env_ok _))
             (lit "name=%0D%0A+&email=jane%40example.com")).
    + reflexivity.
    + vm_compute. reflexivity.
    + left. vm_compute. reflexivity.
Defined.
